(** * Image classifier: persistent store, class management and the
    pausable training loop

    A shallow embedding of [storage.js] (class [StorageManager]),
    [model.js] (class [ModelManager]) and the handlers of [js/app.js]
    that drive them.

    Conventions.
    - Record keys and counters are JavaScript numbers holding integers;
      they are modelled as [Z] (IndexedDB keys) or [nat] (loop counters).
    - An object store is the list of its records in key order, which is
      the order [getAll] returns them in.
    - An awaited request that can settle either way is given its failure
      as an explicit [option Error] argument: [None] when the request
      fires [onsuccess], [Some e] when it fires [onerror].
    - The [createdAt] time stamps are written but never read and are left
      out of the records. *)

From Stdlib Require Import DecimalString DecimalNat.
From stdpp Require Import gmap strings list sorting.

Open Scope string_scope.
Open Scope list_scope.
Open Scope nat_scope.

(** ** Shared vocabulary *)

(** A JavaScript [Error]; only its [message] is ever read. *)
Record Error := mkError { message : string }.

#[global] Instance Error_eq_dec : EqDecision Error.
Proof. solve_decision. Defined.

(** How an awaited promise settles. *)
Inductive Settled (A : Type) :=
| Resolved (a : A)
| Rejected (e : Error).
Arguments Resolved {A} a.
Arguments Rejected {A} e.

Inductive ToastType := TInfo | TSuccess | TWarning | TError.

(** The two owned tensors of a run, [trainingData.xs] and
    [trainingData.ys]. *)
Inductive Tensor := Xs | Ys.

#[global] Instance Tensor_eq_dec : EqDecision Tensor.
Proof. solve_decision. Defined.

(** An entry of [modelManager.classLabels]: [{ id, name, index }]. *)
Record ClassLabel := mkLabel {
  label_id : Z;
  label_name : string;
  label_index : nat
}.

(** A JavaScript number that holds a count: a natural number, or what a
    division by zero gives. *)
Inductive Count := Finite (n : nat) | Infinity | NaN.

#[global] Instance Count_eq_dec : EqDecision Count.
Proof. solve_decision. Defined.

(** The double quote character of the template literals. *)
Definition dq : string := String (Ascii.ascii_of_nat 34) EmptyString.

(** ** storage.js *)

Module Storage.

Record ClassRec := mkClass { cls_id : Z; cls_name : string }.
Record ImageRec := mkImage { img_id : Z; img_classId : Z; img_data : string }.

(** The database: the [classes] and [images] object stores with the
    current number of their key generators ([autoIncrement: true]). *)
Record Store := mkStore {
  classes : list ClassRec;
  images : list ImageRec;
  classKey : Z;
  imageKey : Z
}.

Definition emptyStore : Store := mkStore [] [] 1 1.

(** [addClass(name)]: [store.add({ name, createdAt })]; resolves with the
    generated key. *)
Definition addClass (name : string) (fault : option Error) (db : Store)
  : Settled Z * Store :=
  match fault with
  | Some e => (Rejected e, db)
  | None =>
      let id := classKey db in
      (Resolved id,
       mkStore (classes db ++ [mkClass id name]) (images db)
               (id + 1) (imageKey db))
  end.

(** [getClasses()]: [store.getAll()]. *)
Definition getClasses (db : Store) : list ClassRec := classes db.

(** [addImage(classId, imageData)]. *)
Definition addImage (classId : Z) (imageData : string)
    (fault : option Error) (db : Store) : Settled Z * Store :=
  match fault with
  | Some e => (Rejected e, db)
  | None =>
      let id := imageKey db in
      (Resolved id,
       mkStore (classes db) (images db ++ [mkImage id classId imageData])
               (classKey db) (id + 1))
  end.

(** [getImagesByClass(classId)]: [index.getAll(classId)] on the
    [classId] index. *)
Definition getImagesByClass (classId : Z) (db : Store) : list ImageRec :=
  filter (λ img, img_classId img = classId) (images db).

(** [getAllImages()]. *)
Definition getAllImages (db : Store) : list ImageRec := images db.

(** One [store.delete(key)] request on the images store. *)
Definition deleteImageKey (db : Store) (key : Z) : Store :=
  mkStore (classes db) (filter (λ img, img_id img ≠ key) (images db))
          (classKey db) (imageKey db).

(** One [store.delete(key)] request on the classes store. *)
Definition deleteClassKey (db : Store) (key : Z) : Store :=
  mkStore (filter (λ c, cls_id c ≠ key) (classes db)) (images db)
          (classKey db) (imageKey db).

(** [deleteImagesByClass(classId)]: read the class's images, then issue
    one delete per image inside a single read-write transaction and wait
    for all of them.  A failing request aborts that transaction, so the
    step either removes every image it read or none. *)
Definition deleteImagesByClass (classId : Z) (fault : option Error)
    (db : Store) : Settled (list bool) * Store :=
  let imgs := getImagesByClass classId db in
  match fault with
  | Some e => (Rejected e, db)
  | None =>
      (Resolved ((λ _, true) <$> imgs),
       foldl (λ d img, deleteImageKey d (img_id img)) db imgs)
  end.

(** [deleteClass(id)]: first the images, then the class record, each in
    a transaction of its own.  [fault1] is the failure of the first step,
    [fault2] that of the second. *)
Definition deleteClass (id : Z) (fault1 fault2 : option Error)
    (db : Store) : Settled bool * Store :=
  match deleteImagesByClass id fault1 db with
  | (Rejected e, db1) => (Rejected e, db1)
  | (Resolved _, db1) =>
      match fault2 with
      | Some e => (Rejected e, db1)
      | None => (Resolved true, deleteClassKey db1 id)
      end
  end.

(** The value [getDataSummary()] resolves with.  [classCounts] is the
    JavaScript object used as a map from class id to a count. *)
Record Summary := mkSummary {
  numClasses : nat;
  totalImages : nat;
  classCounts : gmap Z nat;
  sumClasses : list ClassRec
}.

(** [for (const cls of classes) classCounts[cls.id] = 0] *)
Definition zeroCounts (cs : list ClassRec) : gmap Z nat :=
  foldl (λ m cls, <[cls_id cls := 0]> m) ∅ cs.

(** The body of the second loop:
    [if (classCounts[img.classId] !== undefined) classCounts[img.classId]++] *)
Definition countImage (m : gmap Z nat) (img : ImageRec) : gmap Z nat :=
  match m !! img_classId img with
  | Some n => <[img_classId img := S n]> m
  | None => m
  end.

Definition getDataSummary (db : Store) : Summary :=
  let classes := getClasses db in
  let images := getAllImages db in
  let classCounts := foldl countImage (zeroCounts classes) images in
  mkSummary (length classes) (length images) classCounts classes.

(** An image is orphaned when no class record carries its [classId]. *)
Definition orphaned (db : Store) (img : ImageRec) : Prop :=
  img_classId img ∉ (cls_id <$> classes db).

End Storage.

(** ** Events, application state and callbacks *)

(** A JavaScript number that is only passed along (losses, accuracies,
    the learning rate), kept as the bit pattern of its IEEE-754 double. *)
Record Num := mkNum { bits : Z }.

#[global] Instance Num_eq_dec : EqDecision Num.
Proof. solve_decision. Defined.

(** The [history.history] object a [fit] call resolves with.  The
    validation entries may be missing (read through [?.]). *)
Record History := mkHistory {
  h_loss : list Num;
  h_acc : list Num;
  h_val_loss : option (list Num);
  h_val_acc : option (list Num)
}.

(** The [logs] object handed to [onEpochEnd] and [onBatchEnd]; a field is
    [None] where JavaScript has [undefined]. *)
Record Logs := mkLogs {
  loss : option Num;
  acc : option Num;
  val_loss : option Num;
  val_acc : option Num
}.

#[global] Instance Logs_eq_dec : EqDecision Logs.
Proof. solve_decision. Defined.

#[global] Instance ToastType_eq_dec : EqDecision ToastType.
Proof. solve_decision. Defined.

(** What the outside world can observe, in the order it happens. *)
Inductive Event :=
| EAllocate (t : Tensor)                     (* prepareTrainingData built xs, or ys *)
| EFit (epoch : nat)                         (* this.model.fit(xs, ys, ...) is issued *)
| EBatchEnd (batch : nat) (totalBatches : Count) (logs : Logs)
                                             (* callbacks.onBatchEnd(...) *)
| EEpochEnd (epoch epochs : nat) (logs : Logs)         (* callbacks.onEpochEnd(...) *)
| ETrainingEnd (completed : bool)            (* callbacks.onTrainingEnd(...) *)
| ETrainingError (e : Error)                 (* callbacks.onTrainingError(...) *)
| EDispose (t : Tensor)                      (* trainingData.xs/ys.dispose() *)
| EToast (msg : string) (type : ToastType)   (* showToast(msg, type) *)
| EConsoleError (label : string) (e : Error) (* console.error(label, error) *)
| ETrainingUI (status : string)              (* updateTrainingUI(status) *)
| EStartTimer
| EStopTimer.

#[global] Instance Event_eq_dec : EqDecision Event.
Proof. solve_decision. Defined.

(** The [state] object of app.js.  Charts, the start time and the timer
    handle only feed the page and are not modelled. *)
Record AppState := mkApp {
  app_classes : list Storage.ClassRec;
  selectedClassId : option Z;
  app_isTraining : bool;
  app_isPaused : bool
}.

(** A callback runs to completion on the application state and may
    produce further events. *)
Definition Callback : Type := AppState → AppState * list Event.

(** The [callbacks] argument of [train]; every member is optional. *)
Record Callbacks := mkCallbacks {
  onEpochEnd : option (nat → nat → Logs → Callback);
  onBatchEnd : option (nat → Count → Logs → Callback);
  onTrainingEnd : option (bool → Callback);
  onTrainingError : option (Error → Callback)
}.

(** ** model.js *)

Module Model.

(** The fields of [ModelManager] that [prepareTrainingData], the entry
    of [createModel] and the training loop write: the class labels and
    the four fields that control the loop.  The networks [model] and
    [mobileNetBase] are not written before [createModel] resolves, and
    [trainingCallbacks] is the argument [callbacks] of [train]. *)
Record ModelManager := mkMM {
  classLabels : list ClassLabel;
  isTraining : bool;
  isPaused : bool;
  shouldStop : bool;
  currentEpoch : nat
}.

(** The constructor. *)
Definition newModelManager : ModelManager := mkMM [] false false false 0.

Definition pauseTraining (m : ModelManager) : ModelManager :=
  mkMM (classLabels m) (isTraining m) true (shouldStop m) (currentEpoch m).

Definition resumeTraining (m : ModelManager) : ModelManager :=
  mkMM (classLabels m) (isTraining m) false (shouldStop m) (currentEpoch m).

Definition stopTraining (m : ModelManager) : ModelManager :=
  mkMM (classLabels m) (isTraining m) false true (currentEpoch m).

(** [{ learningRate, batchSize, epochs, architecture }] *)
Record Params := mkParams {
  learningRate : Num;
  batchSize : nat;
  epochs : nat;
  architecture : string
}.

(** What [prepareTrainingData] resolves with: the tensors [Xs] and [Ys],
    of which only [xs.shape[0]] is read, and the number of classes. *)
Record TrainingData := mkData {
  numSamples : nat;
  numClasses : nat
}.

(** [Math.ceil(numSamples / batchSize)]: with a batch size of 0 the
    quotient is [Infinity], or [NaN] when there is no sample either. *)
Definition totalBatches (d : TrainingData) (p : Params) : Count :=
  if bool_decide (batchSize p = 0) then
    if bool_decide (numSamples d = 0) then NaN else Infinity
  else Finite ((numSamples d + batchSize p - 1) / batchSize p).

(** Where the asynchronous function [train] is suspended. *)
Inductive Pc :=
| PcIdle                        (* train has not been called *)
| PcCreate                      (* await this.createModel(...) *)
| PcSleep (epoch : nat)         (* await new Promise(r => setTimeout(r, 100)) *)
| PcFit (epoch : nat)           (* await this.model.fit(...) *)
| PcDone (r : Settled bool).    (* the promise of train has settled *)

(** The whole program state between two tasks of the event loop. *)
Record Session := mkSession {
  pc : Pc;
  mm : ModelManager;
  app : AppState;
  log : list Event
}.

Definition setPc (p : Pc) (s : Session) : Session :=
  mkSession p (mm s) (app s) (log s).

Definition setMM (m : ModelManager) (s : Session) : Session :=
  mkSession (pc s) m (app s) (log s).

(** [this.classLabels = labels] *)
Definition setLabels (labels : list ClassLabel) (s : Session) : Session :=
  let m := mm s in
  setMM (mkMM labels (isTraining m) (isPaused m) (shouldStop m)
              (currentEpoch m)) s.

Definition emit (evs : list Event) (s : Session) : Session :=
  mkSession (pc s) (mm s) (app s) (log s ++ evs).

(** [if (callbacks.f) callbacks.f(...)]: the call is recorded as [here],
    followed by whatever the callback does. *)
Definition invoke (cb : option Callback) (here : Event) (s : Session)
  : Session :=
  match cb with
  | None => s
  | Some f =>
      let '(a, evs) := f (app s) in
      mkSession (pc s) (mm s) a (log s ++ here :: evs)
  end.

(** [history.history.loss[0]] and friends. *)
Definition epochLogs (h : History) : Logs :=
  mkLogs (head (h_loss h)) (head (h_acc h))
         (h_val_loss h ≫= head) (h_val_acc h ≫= head).

Section Train.

Variable trainingData : TrainingData.
Variable params : Params.
Variable callbacks : Callbacks.

(** The entry of [train] up to its first [await]: the four assignments
    and the call of [createModel], which empties [classLabels] before it
    builds the network. *)
Definition trainBegin (s : Session) : Session :=
  setPc PcCreate (setMM (mkMM [] true false false 0) s).

(** After the loop: [this.isTraining = false], the [onTrainingEnd] call
    and [return !this.shouldStop]. *)
Definition trainEnd (s : Session) : Session :=
  let m := mm s in
  let s1 := setMM (mkMM (classLabels m) false (isPaused m) (shouldStop m)
                        (currentEpoch m)) s in
  let completed := negb (shouldStop m) in
  let s2 := invoke ((λ f, f completed) <$> onTrainingEnd callbacks)
                   (ETrainingEnd completed) s1 in
  setPc (PcDone (Resolved completed)) s2.

(** The [catch] block: [this.isTraining = false], the [onTrainingError]
    call and [throw error]. *)
Definition trainCatch (error : Error) (s : Session) : Session :=
  let m := mm s in
  let s1 := setMM (mkMM (classLabels m) false (isPaused m) (shouldStop m)
                        (currentEpoch m)) s in
  let s2 := invoke ((λ f, f error) <$> onTrainingError callbacks)
                   (ETrainingError error) s1 in
  setPc (PcDone (Rejected error)) s2.

(** The [while (this.isPaused && !this.shouldStop)] test, the
    [if (this.shouldStop) break] after it and the [fit] call. *)
Definition pauseWait (epoch : nat) (s : Session) : Session :=
  if isPaused (mm s) && negb (shouldStop (mm s)) then setPc (PcSleep epoch) s
  else if shouldStop (mm s) then trainEnd s
  else setPc (PcFit epoch) (emit [EFit epoch] s).

(** The loop test [epoch < epochs && !this.shouldStop] and the start of
    the body. *)
Definition loopHead (epoch : nat) (s : Session) : Session :=
  if bool_decide (epoch < epochs params) && negb (shouldStop (mm s)) then
    let m := mm s in
    pauseWait epoch
      (setMM (mkMM (classLabels m) (isTraining m) (isPaused m) (shouldStop m)
                   epoch) s)
  else trainEnd s.

(** What the event loop can run next: the settling of the promise [train]
    is waiting for, a batch callback of the running [fit], or one of the
    three control methods. *)
Inductive Input :=
| ICreated                      (* createModel resolved and compileModel returned *)
| ICreateFailed (e : Error)     (* one of the two threw *)
| ITimer                        (* the 100 ms timer fired *)
| IBatch (batch : nat) (logs : Logs)
| IFitDone (h : History)
| IFitFailed (e : Error)
| IPause                        (* modelManager.pauseTraining() *)
| IResume                       (* modelManager.resumeTraining() *)
| IStop.                        (* modelManager.stopTraining() *)

(** One task of the event loop.  An input the session is not waiting for
    cannot occur and leaves the session as it is. *)
Definition step (s : Session) (i : Input) : Session :=
  match i, pc s with
  | ICreated, PcCreate => loopHead 0 s
  | ICreateFailed e, PcCreate => trainCatch e s
  | ITimer, PcSleep epoch => pauseWait epoch s
  | IBatch batch logs, PcFit _ =>
      invoke ((λ f, f batch (totalBatches trainingData params) logs)
                <$> onBatchEnd callbacks)
             (EBatchEnd batch (totalBatches trainingData params) logs) s
  | IFitDone h, PcFit epoch =>
      loopHead (S epoch)
        (invoke ((λ f, f epoch (epochs params) (epochLogs h))
                   <$> onEpochEnd callbacks)
                (EEpochEnd epoch (epochs params) (epochLogs h)) s)
  | IFitFailed e, PcFit _ => trainCatch e s
  | IPause, _ => setMM (pauseTraining (mm s)) s
  | IResume, _ => setMM (resumeTraining (mm s)) s
  | IStop, _ => setMM (stopTraining (mm s)) s
  | _, _ => s
  end.

(** [train(trainingData, params, callbacks)] followed by the tasks [ins]. *)
Definition run (ins : list Input) (s : Session) : Session :=
  foldl step s ins.

Definition train (ins : list Input) (s : Session) : Session :=
  run ins (trainBegin s).

End Train.

End Model.

(** ** js/app.js *)

Module App.

Import Storage Model.

(** How a call of a handler stands when control returns to the event
    loop: it has returned, it has thrown, or it is suspended on the
    promise of [train] (with the tensors it allocated). *)
Inductive Completion :=
| Returned
| Threw (e : Error)
| Awaiting (data : TrainingData).

Definition setApp (a : AppState) (s : Session) : Session :=
  mkSession (pc s) (mm s) a (log s).

Definition setTraining (t p : bool) (a : AppState) : AppState :=
  mkApp (app_classes a) (selectedClassId a) t p.

(** *** Class management *)

(** [updateClassSelector()]: besides filling the select box it repairs
    [state.selectedClassId]. *)
Definition updateClassSelector (a : AppState) : AppState :=
  match app_classes a with
  | [] => a
  | c0 :: _ =>
      let falsy := match selectedClassId a with
                   | None => true
                   | Some k => bool_decide (k = 0%Z)
                   end in
      let found := match selectedClassId a with
                   | None => false
                   | Some k => bool_decide (Exists (λ c, cls_id c = k) (app_classes a))
                   end in
      if falsy || negb found
      then mkApp (app_classes a) (Some (cls_id c0)) (app_isTraining a) (app_isPaused a)
      else a
  end.

Section Builtins.

(** [String.prototype.trim] and [String.prototype.toLowerCase]. *)
Variable trim : string → string.
Variable toLowerCase : string → string.

(** [handleAddClass()], with [input] the content of the text box and
    [fault] the failure of [storage.addClass], if any. *)
Definition handleAddClass (input : string) (fault : option Error)
    (a : AppState) (db : Store) : AppState * Store * list Event :=
  let name := trim input in
  if bool_decide (name = EmptyString) then
    (a, db, [EToast "Please enter a class name" TWarning])
  else if bool_decide
            (Exists (λ c, toLowerCase (cls_name c) = toLowerCase name)
                    (app_classes a)) then
    (a, db, [EToast "A class with this name already exists" TWarning])
  else
    match addClass name fault db with
    | (Resolved id, db') =>
        let newClass := mkClass id name in
        let a1 := mkApp (app_classes a ++ [newClass]) (selectedClassId a)
                        (app_isTraining a) (app_isPaused a) in
        (updateClassSelector a1, db',
         [EToast ("Class " +:+ dq +:+ name +:+ dq +:+ " added successfully") TSuccess])
    | (Rejected error, db') =>
        (a, db',
         [EConsoleError "Error adding class:" error;
          EToast "Failed to add class" TError])
    end.

End Builtins.

(** *** Training *)

(** The callbacks [handleStartTraining] hands to [train].  The first two
    only repaint the page. *)
Definition trainingCallbacks : Callbacks :=
  mkCallbacks
    (Some (λ (epoch totalEpochs : nat) (logs : Logs) (a : AppState), (a, [])))
    (Some (λ (batch : nat) (totalBatches : Count) (logs : Logs) (a : AppState),
       (a, [])))
    (Some (λ (completed : bool) (a : AppState),
       (setTraining false (app_isPaused a) a,
        [EStopTimer; EDispose Xs; EDispose Ys;
         if completed then EToast "Training completed successfully!" TSuccess
         else EToast "Training stopped" TWarning;
         ETrainingUI "idle"])))
    (Some (λ (error : Error) (a : AppState),
       (setTraining false (app_isPaused a) a,
        [EConsoleError "Training error:" error;
         EStopTimer; EDispose Xs; EDispose Ys;
         EToast ("Training failed: " +:+ message error) TError;
         ETrainingUI "idle"]))).

(** The [catch] block of [handleStartTraining]. *)
Definition catchStart (error : Error) (s : Session) : Session :=
  emit [EConsoleError "Error starting training:" error;
        EToast ("Failed to start training: " +:+ message error) TError;
        ETrainingUI "idle"]
       (setApp (setTraining false (app_isPaused (app s)) (app s)) s).

(** The object [classesWithImages].  Its keys are class ids, positive
    integers handed out by the store, and [Object.entries] lists such
    keys in ascending order whatever the order of the assignments; an
    assignment to a key that is there replaces its value. *)
Fixpoint setEntry (key : Z) (value : string * list ImageRec)
    (o : list (Z * (string * list ImageRec)))
  : list (Z * (string * list ImageRec)) :=
  match o with
  | [] => [(key, value)]
  | (k, v) :: rest =>
      if bool_decide (key = k) then (key, value) :: rest
      else if bool_decide (key < k)%Z then (key, value) :: (k, v) :: rest
      else (k, v) :: setEntry key value rest
  end.

(** The body of the loop over [state.classes], once the images of [cls]
    are read. *)
Definition addEntry (cls : ClassRec) (images : list ImageRec)
    (o : list (Z * (string * list ImageRec)))
  : list (Z * (string * list ImageRec)) :=
  if bool_decide (0 < length images)
  then setEntry (cls_id cls) (cls_name cls, images) o else o.

(** The object after the loop, read from a store that does not change
    meanwhile. *)
Definition classesWithImages (cs : list ClassRec) (db : Store)
  : list (Z * (string * list ImageRec)) :=
  foldl (λ o cls, addEntry cls (getImagesByClass (cls_id cls) db) o) [] cs.

(** What TensorFlow.js throws on [tf.stack([])] and on [tf.oneHot] with
    a depth below 2. *)
Definition stackError : Error := mkError "Pass at least one tensor to tf.stack".

Definition oneHotError : Error :=
  mkError "Error in oneHot: depth must be >=2, but it is 1".

(** The loop of [prepareTrainingData]: a label is pushed for every entry
    before its images are loaded.  [fault = Some (i, e)] makes the load
    of image number [i], counted from 0 over the whole loop, reject with
    [e].  The result is [this.classLabels] and, unless a load rejects,
    the number of images loaded. *)
Fixpoint loadImages (entries : list (Z * (string * list ImageRec)))
    (classIndex loaded : nat) (fault : option (nat * Error))
    (labels : list ClassLabel) : list ClassLabel * Settled nat :=
  match entries with
  | [] => (labels, Resolved loaded)
  | (classId, (name, images)) :: rest =>
      let labels' := labels ++ [mkLabel classId name classIndex] in
      match fault with
      | Some (i, e) =>
          if bool_decide (loaded ≤ i) && bool_decide (i < loaded + length images)
          then (labels', Rejected e)
          else loadImages rest (S classIndex) (loaded + length images) fault labels'
      | None =>
          loadImages rest (S classIndex) (loaded + length images) fault labels'
      end
  end.

(** [modelManager.prepareTrainingData(classesWithImages)].  The class
    labels are overwritten first.  Then [xs] is stacked from the images,
    which throws when there is none, and [ys] is made by [tf.oneHot],
    which throws when there is one class only; [xs] is then left
    allocated. *)
Definition prepareTrainingData (cwi : list (Z * (string * list ImageRec)))
    (fault : option (nat * Error)) (s : Session) : Session * Settled TrainingData :=
  let '(labels, loaded) := loadImages cwi 0 0 fault [] in
  let s1 := setLabels labels s in
  match loaded with
  | Rejected e => (s1, Rejected e)
  | Resolved n =>
      if bool_decide (n = 0) then (s1, Rejected stackError)
      else if bool_decide (length labels < 2)
      then (emit [EAllocate Xs] s1, Rejected oneHotError)
      else (emit [EAllocate Xs; EAllocate Ys] s1,
            Resolved (mkData n (length labels)))
  end.

(** The failures of the awaited steps that precede [train]: that of
    [getDataSummary], that of the first [getImagesByClass] to fail, and
    the image [prepareTrainingData] cannot load. *)
Record StartFaults := mkFaults {
  summaryFault : option Error;
  imagesFault : option Error;
  prepareFault : option (nat * Error)
}.

Definition noFaults : StartFaults := mkFaults None None None.

(** **** The call step by step

    [handleStartTraining] has four kinds of [await].  Between two of
    them any other task may run, a further call of [handleStartTraining]
    included: [state.isTraining] is only set in the last step before
    [train] is entered.  A [Session] follows one call of [train], the one
    made last. *)

(** Where a call of [handleStartTraining] stands.  [params] are the
    values read from the page after the check of the summary. *)
Inductive StartPc :=
| StartReturned
| OnSummary                     (* await storage.getDataSummary() *)
| OnImages (params : Params)
           (classesWithImages : list (Z * (string * list ImageRec)))
           (cls : ClassRec) (rest : list ClassRec)
                                (* await storage.getImagesByClass(cls.id) *)
| OnPrepare (params : Params)
            (classesWithImages : list (Z * (string * list ImageRec)))
                                (* await modelManager.prepareTrainingData(...) *)
| OnTrain (params : Params) (trainingData : TrainingData).
                                (* await modelManager.train(...) *)

(** The guard, up to the first [await]. *)
Definition startEntry (s : Session) : Session * StartPc :=
  if app_isTraining (app s) then (s, StartReturned) else (s, OnSummary).

(** The head of the loop over [state.classes], with [rest] the classes
    still to visit, and what follows the loop. *)
Definition startLoop (params : Params)
    (cwi : list (Z * (string * list ImageRec))) (rest : list ClassRec)
    (s : Session) : Session * StartPc :=
  match rest with
  | cls :: rest' => (s, OnImages params cwi cls rest')
  | [] =>
      (emit [EToast "Preparing training data..." TInfo] s,
       OnPrepare params cwi)
  end.

(** From the summary to the loop. *)
Definition afterSummary (params : Params) (r : Settled Summary)
    (s : Session) : Session * StartPc :=
  match r with
  | Rejected e => (catchStart e s, StartReturned)
  | Resolved summary =>
      if bool_decide (Storage.numClasses summary < 2) then
        (emit [EToast "You need at least 2 classes to train" TWarning] s,
         StartReturned)
      else if bool_decide (totalImages summary < 4) then
        (emit [EToast "You need at least 4 images to train" TWarning] s,
         StartReturned)
      else startLoop params [] (app_classes (app s)) s
  end.

(** One turn of the loop. *)
Definition afterImages (params : Params)
    (cwi : list (Z * (string * list ImageRec)))
    (cls : ClassRec) (rest : list ClassRec)
    (r : Settled (list ImageRec)) (s : Session) : Session * StartPc :=
  match r with
  | Rejected e => (catchStart e s, StartReturned)
  | Resolved images => startLoop params (addEntry cls images cwi) rest s
  end.

(** From the prepared data to the first [await] inside [train]. *)
Definition afterPrepare (params : Params) (r : Settled TrainingData)
    (s : Session) : Session * StartPc :=
  match r with
  | Rejected e => (catchStart e s, StartReturned)
  | Resolved trainingData =>
      let s1 := emit [ETrainingUI "training"; EStartTimer]
                     (setApp (setTraining true false (app s)) s) in
      (trainBegin s1, OnTrain params trainingData)
  end.

(** A promise that settles with [value] unless [fault] has it fail. *)
Definition settle {A} (fault : option Error) (value : A) : Settled A :=
  match fault with
  | Some e => Rejected e
  | None => Resolved value
  end.

(** The call resumes with what the store [db] and the model manager
    answer.  [prepareTrainingData] is taken as one step, made when the
    call resumes: two calls of it that overlap push to the same
    [classLabels], which these steps do not follow. *)
Definition startResume (params : Params) (f : StartFaults) (db : Store)
    (w : StartPc) (s : Session) : Session * StartPc :=
  match w with
  | OnSummary =>
      afterSummary params (settle (summaryFault f) (getDataSummary db)) s
  | OnImages p cwi cls rest =>
      afterImages p cwi cls rest
        (settle (imagesFault f) (getImagesByClass (cls_id cls) db)) s
  | OnPrepare p cwi =>
      let '(s1, r) := prepareTrainingData cwi (prepareFault f) s in
      afterPrepare p r s1
  | StartReturned | OnTrain _ _ => (s, w)
  end.

(** [n] such steps in a row. *)
Fixpoint startSteps (params : Params) (f : StartFaults) (db : Store)
    (n : nat) (w : StartPc) (s : Session) : Session * StartPc :=
  match n with
  | 0 => (s, w)
  | S n' =>
      let '(s', w') := startResume params f db w s in
      startSteps params f db n' w' s'
  end.

(** **** The call as a whole *)

(** [handleStartTraining()] up to the first [await] inside [train], for
    a call during which no other task runs and the store stays as it
    is: the steps above, one after the other. *)
Definition handleStartTraining (params : Params) (f : StartFaults)
    (db : Store) (s : Session) : Session * Completion :=
  if app_isTraining (app s) then (s, Returned)
  else
    match summaryFault f with
    | Some e => (catchStart e s, Returned)
    | None =>
        let summary := getDataSummary db in
        if bool_decide (Storage.numClasses summary < 2) then
          (emit [EToast "You need at least 2 classes to train" TWarning] s,
           Returned)
        else if bool_decide (totalImages summary < 4) then
          (emit [EToast "You need at least 4 images to train" TWarning] s,
           Returned)
        else
          match imagesFault f, app_classes (app s) with
          | Some e, _ :: _ => (catchStart e s, Returned)
          | _, _ =>
              let cwi := classesWithImages (app_classes (app s)) db in
              let s1 := emit [EToast "Preparing training data..." TInfo] s in
              match prepareTrainingData cwi (prepareFault f) s1 with
              | (s2, Rejected e) => (catchStart e s2, Returned)
              | (s2, Resolved trainingData) =>
                  let s3 := emit [ETrainingUI "training"; EStartTimer]
                              (setApp (setTraining true false (app s2)) s2) in
                  (trainBegin s3, Awaiting trainingData)
              end
          end
    end.

(** Where a call stands that has returned or entered [train]. *)
Definition placeOf (params : Params) (c : Completion) : StartPc :=
  match c with
  | Awaiting data => OnTrain params data
  | _ => StartReturned
  end.

(** [handlePauseTraining()] *)
Definition handlePauseTraining (s : Session) : Session :=
  if negb (app_isTraining (app s)) then s
  else if app_isPaused (app s) then
    setApp (setTraining (app_isTraining (app s)) false (app s))
           (setMM (resumeTraining (mm s)) s)
  else
    setApp (setTraining (app_isTraining (app s)) true (app s))
           (setMM (pauseTraining (mm s)) s).

(** [handleStopTraining()], with the answer to the [confirm] dialog. *)
Definition handleStopTraining (confirmed : bool) (s : Session) : Session :=
  if negb (app_isTraining (app s)) then s
  else if confirmed then setMM (stopTraining (mm s)) s
  else s.

(** The tasks that can run while [handleStartTraining] is suspended. *)
Inductive AppInput :=
| Runtime (i : Input)
| ClickPause
| ClickStop (confirmed : bool).

(** One task.  When the promise of [train] rejects, the suspended
    [handleStartTraining] resumes in its [catch] block. *)
Definition appStep (trainingData : TrainingData) (params : Params)
    (s : Session) (i : AppInput) : Session :=
  match i with
  | Runtime i =>
      let s' := step trainingData params trainingCallbacks s i in
      match pc s, pc s' with
      | PcDone _, _ => s'
      | _, PcDone (Rejected e) => catchStart e s'
      | _, _ => s'
      end
  | ClickPause => handlePauseTraining s
  | ClickStop confirmed => handleStopTraining confirmed s
  end.

Definition appRun (trainingData : TrainingData) (params : Params)
    (ins : list AppInput) (s : Session) : Session :=
  foldl (appStep trainingData params) s ins.

(** The page before any training: no class selected, nothing logged. *)
Definition idleSession (cs : list ClassRec) : Session :=
  mkSession PcIdle newModelManager (mkApp cs None false false) [].

End App.

(** ** Reading the log *)

Module Trace.

Import Model App.

(** The progress events: epoch index and epoch count of every
    [onEpochEnd] call, in the order of the calls. *)
Definition epochEnds (tr : list Event) : list (nat * nat) :=
  omap (λ e, match e with
             | EEpochEnd epoch total _ => Some (epoch, total)
             | _ => None
             end) tr.

(** The epochs for which a [fit] call was issued, in order. *)
Definition fits (tr : list Event) : list nat :=
  omap (λ e, match e with EFit epoch => Some epoch | _ => None end) tr.

(** The terminal outcomes reported through [onTrainingEnd] and
    [onTrainingError]. *)
Definition outcomes (tr : list Event) : list (Settled bool) :=
  omap (λ e, match e with
             | ETrainingEnd completed => Some (Resolved completed)
             | ETrainingError err => Some (Rejected err)
             | _ => None
             end) tr.

(** How often [dispose()] was called on a tensor. *)
Definition disposals (t : Tensor) (tr : list Event) : nat :=
  length (filter (λ e, e = EDispose t) tr).

(** The events of the epoch loop itself. *)
Definition inLoop (e : Event) : bool :=
  match e with
  | EFit _ | EBatchEnd _ _ _ | EEpochEnd _ _ _ => true
  | _ => false
  end.

(** What the log gained between two sessions of a run. *)
Definition since (s s' : Session) : list Event :=
  drop (length (log s)) (log s').

(** What [onTrainingEnd] of app.js adds to the log, its own call
    included. *)
Definition endBlock (completed : bool) : list Event :=
  [ETrainingEnd completed; EStopTimer; EDispose Xs; EDispose Ys;
   if completed then EToast "Training completed successfully!" TSuccess
   else EToast "Training stopped" TWarning;
   ETrainingUI "idle"].

(** What [onTrainingError] adds, followed by the [catch] block of
    [handleStartTraining] that the rethrown error reaches. *)
Definition errorBlock (error : Error) : list Event :=
  [ETrainingError error; EConsoleError "Training error:" error;
   EStopTimer; EDispose Xs; EDispose Ys;
   EToast ("Training failed: " +:+ message error) TError;
   ETrainingUI "idle";
   EConsoleError "Error starting training:" error;
   EToast ("Failed to start training: " +:+ message error) TError;
   ETrainingUI "idle"].

(** [train] is suspended on one of its three [await]s. *)
Definition active (s : Session) : Prop :=
  match pc s with
  | PcCreate | PcSleep _ | PcFit _ => True
  | _ => False
  end.

Definition terminated (s : Session) : Prop :=
  match pc s with PcDone _ => True | _ => False end.


(** The input is a request to stop that the session accepts. *)
Definition stops (s : Session) (i : AppInput) : Prop :=
  match i with
  | Runtime IStop => True
  | ClickStop true => app_isTraining (app s) = true
  | _ => False
  end.

(** The input is one of the pause, resume and stop requests. *)
Definition control (i : AppInput) : Prop :=
  match i with
  | Runtime IPause | Runtime IResume | Runtime IStop => True
  | ClickPause | ClickStop _ => True
  | _ => False
  end.

(** The input neither asks to stop nor reports a failure. *)
Definition calm (i : AppInput) : Prop :=
  match i with
  | Runtime IStop | ClickStop true => False
  | Runtime (ICreateFailed _) | Runtime (IFitFailed _) => False
  | _ => True
  end.

(** [train] has not thrown, and if it has returned, it returned [true]. *)
Definition unspoilt (s : Session) : Prop :=
  match pc s with
  | PcDone (Resolved completed) => completed = true
  | PcDone (Rejected _) => False
  | _ => True
  end.

(** A session as it stands between the tasks of a run started by
    [handleStartTraining], with [tr] the events logged since the start. *)
Definition shape (epochs : nat) (s : Session) (tr : list Event) : Prop :=
  match pc s with
  | PcIdle => False
  | PcCreate => tr = [] ∧ app_isTraining (app s) = true
  | PcSleep k =>
      k < epochs ∧ app_isTraining (app s) = true
      ∧ forallb inLoop tr = true
      ∧ epochEnds tr = (λ i, (i, epochs)) <$> seq 0 k
      ∧ fits tr = seq 0 k
  | PcFit k =>
      k < epochs ∧ app_isTraining (app s) = true
      ∧ forallb inLoop tr = true
      ∧ epochEnds tr = (λ i, (i, epochs)) <$> seq 0 k
      ∧ fits tr = seq 0 (S k)
  | PcDone (Resolved completed) =>
      ∃ pre k, tr = pre ++ endBlock completed
        ∧ k ≤ epochs ∧ (completed = true → k = epochs)
        ∧ forallb inLoop pre = true
        ∧ epochEnds pre = (λ i, (i, epochs)) <$> seq 0 k
        ∧ fits pre = seq 0 k
  | PcDone (Rejected error) =>
      ∃ pre k, tr = pre ++ errorBlock error
        ∧ k ≤ epochs
        ∧ forallb inLoop pre = true
        ∧ epochEnds pre = (λ i, (i, epochs)) <$> seq 0 k
        ∧ (fits pre = seq 0 k ∨ (k < epochs ∧ fits pre = seq 0 (S k)))
  end.

(** The invariant of a run whose log was [l0] when [train] was entered. *)
Definition Inv (epochs : nat) (l0 : list Event) (s : Session) : Prop :=
  ∃ tr, log s = l0 ++ tr ∧ shape epochs s tr.

End Trace.

(** ** The string built-ins on 7-bit text

    [trim] and [toLowerCase] as they act on strings of ASCII characters,
    used to run [handleAddClass] on concrete input. *)

Module Ascii7.

(** Tab, line feed, vertical tab, form feed, carriage return, space. *)
Definition isSpace (c : Ascii.ascii) : bool :=
  let n := Ascii.nat_of_ascii c in
  (bool_decide (9 ≤ n) && bool_decide (n ≤ 13)) || bool_decide (n = 32).

Fixpoint trimStart (s : string) : string :=
  match s with
  | EmptyString => EmptyString
  | String c r => if isSpace c then trimStart r else s
  end.

Definition trim (s : string) : string :=
  String.rev (trimStart (String.rev (trimStart s))).

Definition lowerChar (c : Ascii.ascii) : Ascii.ascii :=
  let n := Ascii.nat_of_ascii c in
  if bool_decide (65 ≤ n) && bool_decide (n ≤ 90)
  then Ascii.ascii_of_nat (n + 32) else c.

Fixpoint toLowerCase (s : string) : string :=
  match s with
  | EmptyString => EmptyString
  | String c r => String (lowerChar c) (toLowerCase r)
  end.

End Ascii7.

(** ** Sample data *)

Module Samples.

Import Storage Model.

Definition cat : ClassRec := mkClass 1 "cat".
Definition dog : ClassRec := mkClass 2 "dog".

(** Two classes and four images, none of which belongs to either class. *)
Definition orphanStore : Store :=
  mkStore [cat; dog]
          [mkImage 1 7 "a"; mkImage 2 7 "b"; mkImage 3 8 "c"; mkImage 4 8 "d"]
          3 5.

(** Two classes with two images each. *)
Definition smallStore : Store :=
  mkStore [cat; dog]
          [mkImage 1 1 "a"; mkImage 2 1 "b"; mkImage 3 2 "c"; mkImage 4 2 "d"]
          3 5.

(** One class only. *)
Definition oneClassStore : Store :=
  mkStore [cat] [mkImage 1 1 "a"; mkImage 2 1 "b"] 2 3.

Definition quotaExceeded : Error := mkError "QuotaExceededError".
Definition outOfMemory : Error := mkError "out of memory".

Definition noClasses : AppState := mkApp [] None false false.

Definition params3 : Params := mkParams (mkNum 0) 16 3 "simple".

(** The page with the two classes, and the outcome of clicking Start on
    it: four samples, two classes. *)
Definition page : Session := App.idleSession [cat; dog].

Definition data4 : TrainingData := mkData 4 2.

Definition session0 : Session :=
  (App.handleStartTraining params3 App.noFaults smallStore page).1.

Definition history1 : History :=
  mkHistory [mkNum 1] [mkNum 2] (Some [mkNum 3]) None.

Definition fitDone : App.AppInput := App.Runtime (IFitDone history1).

(** Three epochs without any interference. *)
Definition plainRun : list App.AppInput :=
  [App.Runtime ICreated; fitDone; fitDone; fitDone].

(** The session while the first epoch is being fitted. *)
Definition fitting0 : Session :=
  App.appRun data4 params3 [App.Runtime ICreated] session0.

(** The session parked in the pause loop before the second epoch. *)
Definition waiting1 : Session :=
  App.appRun data4 params3 [App.Runtime ICreated; App.ClickPause; fitDone]
             session0.

End Samples.

(** ** storage.js, the remaining operations *)

Module StorageMore.

Import Storage.

(** [deleteImage(id)]: one [store.delete(id)]; deleting a key that is not
    there succeeds as well. *)
Definition deleteImage (id : Z) (fault : option Error) (db : Store)
  : Settled bool * Store :=
  match fault with
  | Some e => (Rejected e, db)
  | None => (Resolved true, deleteImageKey db id)
  end.

(** [store.get(id)] on the classes store. *)
Definition getClass (id : Z) (db : Store) : option ClassRec :=
  head (filter (λ c, cls_id c = id) (classes db)).

(** [store.put(data)] for a record whose key is in the store: the record
    under that key is replaced where it stands. *)
Definition putClass (data : ClassRec) (db : Store) : Store :=
  mkStore ((λ c, if bool_decide (cls_id c = cls_id data) then data else c)
             <$> classes db)
          (images db) (classKey db) (imageKey db).

(** [updateClassName(id, name)]: read the record, change its name and
    write it back in the same transaction.  [faultGet] and [faultPut] are
    the failures of the two requests. *)
Definition updateClassName (id : Z) (name : string)
    (faultGet faultPut : option Error) (db : Store) : Settled bool * Store :=
  match faultGet with
  | Some e => (Rejected e, db)
  | None =>
      match getClass id db with
      | Some data =>
          match faultPut with
          | Some e => (Rejected e, db)
          | None => (Resolved true, putClass (mkClass (cls_id data) name) db)
          end
      | None => (Rejected (mkError "Class not found"), db)
      end
  end.

(** The whole database: the two stores above, the record kept under the
    key ['current'] of the models store, and the settings store. *)
Record Database := mkDb {
  core : Store;
  modelInfo : option (list ClassLabel);
  settings : gmap string string
}.

(** [saveModelInfo(modelInfo)] and [getModelInfo()]. *)
Definition saveModelInfo (info : list ClassLabel) (fault : option Error)
    (d : Database) : Settled bool * Database :=
  match fault with
  | Some e => (Rejected e, d)
  | None => (Resolved true, mkDb (core d) (Some info) (settings d))
  end.

Definition getModelInfo (d : Database) : option (list ClassLabel) :=
  modelInfo d.

(** [saveSetting(key, value)] and [getSetting(key)]. *)
Definition saveSetting (key value : string) (fault : option Error)
    (d : Database) : Settled bool * Database :=
  match fault with
  | Some e => (Rejected e, d)
  | None =>
      (Resolved true, mkDb (core d) (modelInfo d) (<[key := value]> (settings d)))
  end.

Definition getSetting (key : string) (d : Database) : option string :=
  settings d !! key.

(** The names in [STORES]. *)
Inductive StoreName := CLASSES | IMAGES | MODELS | SETTINGS.

(** [store.clear()]: every record goes, the key generator stays. *)
Definition clearStore (name : StoreName) (d : Database) : Database :=
  match name with
  | CLASSES =>
      mkDb (mkStore [] (images (core d)) (classKey (core d)) (imageKey (core d)))
           (modelInfo d) (settings d)
  | IMAGES =>
      mkDb (mkStore (classes (core d)) [] (classKey (core d)) (imageKey (core d)))
           (modelInfo d) (settings d)
  | MODELS => mkDb (core d) None (settings d)
  | SETTINGS => mkDb (core d) (modelInfo d) ∅
  end.

(** The loop of [clearAll()]: one transaction per store, in order, the
    first failure ending it.  [faults] gives the failure of each clear. *)
Fixpoint clearLoop (storeNames : list StoreName)
    (faults : StoreName → option Error) (d : Database)
  : Settled bool * Database :=
  match storeNames with
  | [] => (Resolved true, d)
  | storeName :: rest =>
      match faults storeName with
      | Some e => (Rejected e, d)
      | None => clearLoop rest faults (clearStore storeName d)
      end
  end.

Definition clearAll (faults : StoreName → option Error) (d : Database)
  : Settled bool * Database :=
  clearLoop [CLASSES; IMAGES; MODELS; SETTINGS] faults d.

(** What IndexedDB guarantees of the two keyed stores: keys are unique
    and were all handed out by the key generator. *)
Definition wellKeyed (db : Store) : Prop :=
  NoDup (cls_id <$> classes db)
  ∧ Forall (λ c, (cls_id c < classKey db)%Z) (classes db)
  ∧ NoDup (img_id <$> images db)
  ∧ Forall (λ img, (img_id img < imageKey db)%Z) (images db).

(** The stored images whose class is gone. *)
Definition orphans (db : Store) : list ImageRec :=
  filter (orphaned db) (images db).

End StorageMore.

(** ** More ways of reading a run *)

Module TraceMore.

Import Model App Trace.

(** The task comes from the page or the runtime, not from a direct call
    of the control methods of the model manager. *)
Definition pageDriven (i : AppInput) : Prop :=
  match i with
  | Runtime IPause | Runtime IResume | Runtime IStop => False
  | _ => True
  end.


(** How the flags and the epoch index stand between the tasks of a run
    started by [handleStartTraining]. *)
Definition bookkeeping (epochs : nat) (s : Session) : Prop :=
  match pc s with
  | PcIdle => False
  | PcCreate =>
      currentEpoch (mm s) = 0
      ∧ isTraining (mm s) = true ∧ app_isTraining (app s) = true
  | PcSleep k | PcFit k =>
      currentEpoch (mm s) = k ∧ k < epochs
      ∧ isTraining (mm s) = true ∧ app_isTraining (app s) = true
  | PcDone _ =>
      currentEpoch (mm s) ≤ Nat.pred epochs
      ∧ isTraining (mm s) = false ∧ app_isTraining (app s) = false
  end.

(** The number of images in an object [classesWithImages], and the
    labels [prepareTrainingData] makes of its entries when it numbers
    them from [classIndex]. *)
Definition samples (cwi : list (Z * (string * list Storage.ImageRec))) : nat :=
  sum_list ((λ e, length e.2.2) <$> cwi).

Definition labelsFrom (classIndex : nat)
    (cwi : list (Z * (string * list Storage.ImageRec))) : list ClassLabel :=
  imap (λ i e, mkLabel e.1 e.2.1 (classIndex + i)) cwi.

(** The call of [handleStartTraining] gets as far as calling
    [prepareTrainingData]. *)
Definition reachesPrepare (f : StartFaults) (db : Storage.Store)
    (s : Session) : Prop :=
  app_isTraining (app s) = false
  ∧ summaryFault f = None
  ∧ 2 ≤ length (Storage.classes db) ∧ 4 ≤ length (Storage.images db)
  ∧ (imagesFault f = None ∨ app_classes (app s) = []).

(** No image of the object fails to load. *)
Definition loadsAll (f : StartFaults)
    (cwi : list (Z * (string * list Storage.ImageRec))) : Prop :=
  ∀ i e, prepareFault f = Some (i, e) → samples cwi ≤ i.

End TraceMore.

(** ** ui.js *)

Module Ui.

(** [Number.prototype.toString] on a non-negative integer: its decimal
    digits. *)
Definition toString (n : N) : string :=
  NilEmpty.string_of_uint (N.to_uint n).

(** [s.padStart(targetLength, c)] for a one-character pad string. *)
Definition padStart (targetLength : nat) (c : Ascii.ascii) (s : string)
  : string :=
  String.string_of_list_ascii (replicate (targetLength - String.length s) c) +:+ s.

(** [formatTime(seconds)] on a whole number of seconds.  For a
    fractional argument the three [Math.floor] calls give the fields of
    its integer part. *)
Definition formatTime (seconds : N) : string :=
  let hrs := (seconds / 3600)%N in
  let mins := ((seconds mod 3600) / 60)%N in
  let secs := (seconds mod 60)%N in
  padStart 2 (Ascii.ascii_of_nat 48) (toString hrs) +:+ ":"
  +:+ padStart 2 (Ascii.ascii_of_nat 48) (toString mins) +:+ ":"
  +:+ padStart 2 (Ascii.ascii_of_nat 48) (toString secs).

(** The character of a decimal digit, and the colon. *)
Definition digit (d : N) : Ascii.ascii := Ascii.ascii_of_N (48 + d).

Definition colon : Ascii.ascii := Ascii.ascii_of_nat 58.

End Ui.

(** ** js/app.js, the remaining handlers of the class list *)

Module AppMore.

Import Storage StorageMore Model App.

(** [selectClass(classId)], as far as [state] is concerned. *)
Definition selectClass (classId : Z) (a : AppState) : AppState :=
  mkApp (app_classes a) (Some classId) (app_isTraining a) (app_isPaused a).

(** [handleDeleteClass(classId)], with the answer to the [confirm]
    dialog and the failures of the two steps of [storage.deleteClass]. *)
Definition handleDeleteClass (confirmed : bool) (classId : Z)
    (fault1 fault2 : option Error) (a : AppState) (db : Store)
  : AppState * Store * list Event :=
  if negb confirmed then (a, db, [])
  else
    match deleteClass classId fault1 fault2 db with
    | (Resolved _, db') =>
        let cs := filter (λ c, cls_id c ≠ classId) (app_classes a) in
        let sel := if bool_decide (selectedClassId a = Some classId)
                   then None else selectedClassId a in
        (updateClassSelector
           (mkApp cs sel (app_isTraining a) (app_isPaused a)),
         db', [EToast "Class deleted successfully" TSuccess])
    | (Rejected error, db') =>
        (a, db',
         [EConsoleError "Error deleting class:" error;
          EToast "Failed to delete class" TError])
    end.

(** [const cls = state.classes.find(c => c.id === classId);
     if (cls) cls.name = newName] *)
Fixpoint renameFirst (classId : Z) (newName : string) (cs : list ClassRec)
  : list ClassRec :=
  match cs with
  | [] => []
  | c :: rest =>
      if bool_decide (cls_id c = classId)
      then mkClass (cls_id c) newName :: rest
      else c :: renameFirst classId newName rest
  end.

Section Builtins.

Variable trim : string → string.

(** [saveEdit] of [handleEditClassName(classId, nameSpan)]: what happens
    when the edit box, holding [input], loses the focus.  [currentName]
    is the text the name had on the page.  The last component is the
    text the page shows afterwards, [newName || currentName]. *)
Definition saveEdit (classId : Z) (currentName input : string)
    (faultGet faultPut : option Error) (a : AppState) (db : Store)
  : AppState * Store * list Event * string :=
  let newName := trim input in
  let shown := if bool_decide (newName = EmptyString)
               then currentName else newName in
  if bool_decide (newName ≠ EmptyString) && bool_decide (newName ≠ currentName)
  then
    match updateClassName classId newName faultGet faultPut db with
    | (Resolved _, db') =>
        let cs := renameFirst classId newName (app_classes a) in
        (updateClassSelector
           (mkApp cs (selectedClassId a) (app_isTraining a) (app_isPaused a)),
         db', [EToast "Class name updated" TSuccess], shown)
    | (Rejected error, db') =>
        (a, db',
         [EConsoleError "Error updating class name:" error;
          EToast "Failed to update class name" TError], shown)
    end
  else (a, db, [], shown).

End Builtins.

(** One dropped file: what reading it as a data URL gives, and the
    failure of the [storage.addImage] that follows, if any. *)
Record FileLoad := mkFile {
  readResult : Settled string;
  writeFault : option Error
}.

(** The loop of [handleTrainingImages] over the files, threading the
    store, [addedCount] and the log. *)
Fixpoint addFiles (classId : Z) (files : list FileLoad) (db : Store)
    (addedCount : nat) (evs : list Event) : Store * nat * list Event :=
  match files with
  | [] => (db, addedCount, evs)
  | file :: rest =>
      match readResult file with
      | Rejected error =>
          addFiles classId rest db addedCount
                   (evs ++ [EConsoleError "Error adding image:" error])
      | Resolved dataUrl =>
          match addImage classId dataUrl (writeFault file) db with
          | (Resolved _, db') => addFiles classId rest db' (S addedCount) evs
          | (Rejected error, db') =>
              addFiles classId rest db' addedCount
                       (evs ++ [EConsoleError "Error adding image:" error])
          end
      end
  end.

(** The class the dropped files go to: [state.selectedClassId], or the
    first class when that is not set. *)
Definition targetClass (c0 : ClassRec) (a : AppState) : Z :=
  match selectedClassId a with
  | None => cls_id c0
  | Some k => if bool_decide (k = 0%Z) then cls_id c0 else k
  end.

(** [handleTrainingImages(files)].  [countFault] is the failure of the
    [storage.getImagesByClass] after the loop, which nothing catches. *)
Definition handleTrainingImages (files : list FileLoad)
    (countFault : option Error) (a : AppState) (db : Store)
  : AppState * Store * list Event * Settled unit :=
  match app_classes a with
  | [] => (a, db, [EToast "Please add a class first" TWarning], Resolved ())
  | c0 :: _ =>
      let classId := targetClass c0 a in
      let a1 := selectClass classId a in
      let '(db', addedCount, evs) := addFiles classId files db 0 [] in
      match countFault with
      | Some error => (a1, db', evs, Rejected error)
      | None =>
          (a1, db',
           evs ++ [EToast ("Added " +:+ Ui.toString (N.of_nat addedCount)
                           +:+ " image(s) to training data") TSuccess],
           Resolved ())
      end
  end.

(** The file ended up in the store: it could be read and written. *)
Definition stored (file : FileLoad) : bool :=
  match readResult file, writeFault file with
  | Resolved _, None => true
  | _, _ => false
  end.

(** The data URL of a file that ended up in the store, and the error
    logged for one that did not. *)
Definition storedData (file : FileLoad) : option string :=
  match readResult file, writeFault file with
  | Resolved dataUrl, None => Some dataUrl
  | _, _ => None
  end.

Definition failure (file : FileLoad) : option Error :=
  match readResult file with
  | Rejected error => Some error
  | Resolved _ => writeFault file
  end.

(** The page lists the classes the store holds. *)
Definition mirrors (a : AppState) (db : Store) : Prop :=
  app_classes a = classes db.

(** The selection, when there is one, is a listed class. *)
Definition selectionListed (a : AppState) : Prop :=
  match selectedClassId a with
  | None => True
  | Some k => k ∈ (cls_id <$> app_classes a)
  end.

End AppMore.

(** ** model.js, the model and its class labels *)

Module Labels.

Import Storage StorageMore.

(** The fields [model] (whether it is set) and [classLabels] of
    [ModelManager]. *)
Record LabelState := mkLabels {
  hasModel : bool;
  classLabels : list ClassLabel
}.

(** The part of [prepareTrainingData] that fills [classLabels]: one
    entry per class, numbered from 0. *)
Definition prepareLabels (cwi : list (Z * (string * list ImageRec)))
    (m : LabelState) : LabelState :=
  mkLabels (hasModel m) (imap (λ i e, mkLabel e.1 e.2.1 i) cwi).

(** [createModel(architecture, numClasses)]: the labels are reset before
    the network is built, which may fail. *)
Definition createModel (fault : option Error) (m : LabelState)
  : Settled unit * LabelState :=
  match fault with
  | Some e => (Rejected e, mkLabels (hasModel m) [])
  | None => (Resolved (), mkLabels true [])
  end.

(** [saveModel()]: what it resolves with is what [handleSaveModel]
    stores as model info. *)
Definition saveModel (fault : option Error) (m : LabelState)
  : Settled (list ClassLabel) :=
  if hasModel m then
    match fault with
    | Some e => Rejected e
    | None => Resolved (classLabels m)
    end
  else Rejected (mkError "No model to save").

(** [loadModel(modelInfo)]. *)
Definition loadModel (info : list ClassLabel) (fault : option Error)
    (m : LabelState) : Settled unit * LabelState :=
  match fault with
  | Some e => (Rejected e, m)
  | None => (Resolved (), mkLabels true info)
  end.

(** [deleteModel()]: a failing removal is swallowed. *)
Definition deleteModel (m : LabelState) : LabelState := mkLabels false [].

Section Predict.

(** [Array.prototype.sort] with the comparator of [predict], and the
    probabilities the network returns, by position. *)
Variable sort : list (ClassLabel * option Num) → list (ClassLabel * option Num).
Variable probabilities : list Num.

(** [predict(imageElement)]: one entry per class label, sorted. *)
Definition predict (m : LabelState)
  : Settled (list (ClassLabel * option Num)) :=
  if hasModel m then
    Resolved (sort (imap (λ i cls, (cls, probabilities !! i)) (classLabels m)))
  else Rejected (mkError "Model not trained").

End Predict.

(** What a training run started from the page does to the labels:
    [handleStartTraining] has them prepared, then [train] creates the
    model. *)
Definition labelsOfRun (cwi : list (Z * (string * list ImageRec)))
    (fault : option Error) (m : LabelState) : Settled unit * LabelState :=
  createModel fault (prepareLabels cwi m).

End Labels.

(** ** js/app.js, the handlers of the saved model and of the data *)

Module ModelPage.

Import Storage StorageMore Model App AppMore Labels.

(** [handleSaveModel()], with the failures of [model.save] and of
    [storage.saveModelInfo]. *)
Definition handleSaveModel (faultSave faultInfo : option Error)
    (m : LabelState) (d : Database) : Database * list Event :=
  if negb (hasModel m) then (d, [EToast "No model to save" TWarning])
  else
    match saveModel faultSave m with
    | Resolved info =>
        match saveModelInfo info faultInfo d with
        | (Resolved _, d') =>
            (d', [EToast "Model saved successfully!" TSuccess])
        | (Rejected error, d') =>
            (d', [EConsoleError "Error saving model:" error;
                  EToast "Failed to save model" TError])
        end
    | Rejected error =>
        (d, [EConsoleError "Error saving model:" error;
             EToast "Failed to save model" TError])
    end.

(** [handleLoadModel()], with the failures of [storage.getModelInfo] and
    of [tf.loadLayersModel]. *)
Definition handleLoadModel (faultGet faultLoad : option Error)
    (m : LabelState) (d : Database) : LabelState * list Event :=
  match faultGet with
  | Some error =>
      (m, [EConsoleError "Error loading model:" error;
           EToast "Failed to load model" TError])
  | None =>
      match getModelInfo d with
      | None => (m, [EToast "No saved model found" TWarning])
      | Some info =>
          match loadModel info faultLoad m with
          | (Resolved _, m') =>
              (m', [EToast "Model loaded successfully!" TSuccess])
          | (Rejected error, m') =>
              (m', [EConsoleError "Error loading model:" error;
                    EToast "Failed to load model" TError])
          end
      end
  end.

(** [handleClearData()], with the answer to the [confirm] dialog and the
    failures of the four clears of [storage.clearAll]. *)
Definition handleClearData (confirmed : bool)
    (faults : StoreName → option Error)
    (a : AppState) (m : LabelState) (d : Database)
  : AppState * LabelState * Database * list Event :=
  if negb confirmed then (a, m, d, [])
  else
    match clearAll faults d with
    | (Resolved _, d') =>
        (mkApp [] None (app_isTraining a) (app_isPaused a),
         deleteModel m, d', [EToast "All data cleared" TSuccess])
    | (Rejected error, d') =>
        (a, m, d',
         [EConsoleError "Error clearing data:" error;
          EToast "Failed to clear data" TError])
    end.

End ModelPage.

(** ** More sample data *)

Module SamplesMore.

Import Storage StorageMore Model App AppMore Labels Samples.

(** The page of [smallStore] with the first class selected. *)
Definition listed : AppState := mkApp [cat; dog] (Some 1%Z) false false.

(** Three dropped files: one that is stored, one that cannot be read and
    one that cannot be written. *)
Definition drops : list FileLoad :=
  [mkFile (Resolved "e") None;
   mkFile (Rejected (mkError "NotReadableError")) None;
   mkFile (Resolved "f") (Some quotaExceeded)].

Definition catDogLabels : list ClassLabel :=
  [mkLabel 1 "cat" 0; mkLabel 2 "dog" 1].

Definition database : Database := mkDb smallStore None ∅.

(** Two classes, with all four images under the first. *)
Definition lopsidedStore : Store :=
  mkStore [cat; dog]
          [mkImage 1 1 "a"; mkImage 2 1 "b"; mkImage 3 1 "c"; mkImage 4 1 "d"]
          3 5.

(** [smallStore] with one more image, which belongs to no class. *)
Definition strayStore : Store :=
  mkStore [cat; dog]
          [mkImage 1 1 "a"; mkImage 2 1 "b"; mkImage 3 2 "c"; mkImage 4 2 "d";
           mkImage 5 7 "e"]
          3 6.

(** The clear of the images store fails. *)
Definition imagesStuck (name : StoreName) : option Error :=
  match name with
  | IMAGES => Some quotaExceeded
  | _ => None
  end.

End SamplesMore.

(** * Properties *)

(** ** The store *)

Module StorageFacts.

Import Storage.

Lemma foldl_deleteImageKey_classes (imgs : list ImageRec) (db : Store) :
  classes (foldl (λ d img, deleteImageKey d (img_id img)) db imgs) = classes db.
Proof.
  revert db. induction imgs as [|i imgs IH]; intros db; simpl; [done|].
  by rewrite IH.
Qed.

Lemma foldl_deleteImageKey_images (imgs : list ImageRec) (db : Store) :
  images (foldl (λ d img, deleteImageKey d (img_id img)) db imgs)
  = filter (λ img, img_id img ∉ (img_id <$> imgs)) (images db).
Proof.
  revert db. induction imgs as [|i imgs IH]; intros db; simpl.
  - symmetry. induction (images db) as [|x l IHl]; [done|].
    rewrite filter_cons_True; [by f_equal | apply not_elem_of_nil].
  - rewrite IH. simpl. rewrite list_filter_filter.
    apply list_filter_iff. intros x. rewrite not_elem_of_cons. tauto.
Qed.


Lemma deleteImagesByClass_keeps (id : Z) (db : Store) (img : ImageRec) :
  img ∈ images db →
  (∀ img', img' ∈ images db → img_classId img' = id → img_id img' ≠ img_id img) →
  img ∈ images (deleteImagesByClass id None db).2.
Proof.
  intros Hin Hfresh. unfold deleteImagesByClass. simpl.
  rewrite foldl_deleteImageKey_images. apply list_elem_of_filter.
  split; [|done]. intros (img' & Hid & Hin')%list_elem_of_fmap.
  unfold getImagesByClass in Hin'. apply list_elem_of_filter in Hin' as [Hc Hin'].
  by apply (Hfresh img').
Qed.

Lemma zeroCounts_lookup_gen (cs : list ClassRec) (m : gmap Z nat) (c : Z) :
  foldl (λ m cls, <[cls_id cls := 0]> m) m cs !! c
  = if decide (c ∈ (cls_id <$> cs)) then Some 0 else m !! c.
Proof.
  revert m. induction cs as [|x cs IH]; intros m.
  - destruct (decide (c ∈ (cls_id <$> []))) as [Hin|_]; [|done].
    by apply elem_of_nil in Hin.
  - cbn [foldl]. rewrite IH.
    destruct (decide (c ∈ (cls_id <$> cs))) as [Hin|Hin];
      destruct (decide (c ∈ (cls_id <$> x :: cs))) as [Hin'|Hin']; try done.
    + exfalso. apply Hin'. rewrite fmap_cons, elem_of_cons. by right.
    + rewrite fmap_cons in Hin'. apply elem_of_cons in Hin' as [->|Hin']; [|done].
      by rewrite lookup_insert_eq.
    + rewrite lookup_insert_ne; [done|]. intros <-. apply Hin'.
      rewrite fmap_cons, elem_of_cons. by left.
Qed.

Lemma zeroCounts_lookup (cs : list ClassRec) (c : Z) :
  zeroCounts cs !! c = if decide (c ∈ (cls_id <$> cs)) then Some 0 else None.
Proof. unfold zeroCounts. by rewrite zeroCounts_lookup_gen, lookup_empty. Qed.

Lemma countImage_lookup (imgs : list ImageRec) (m : gmap Z nat) (c : Z) :
  foldl countImage m imgs !! c
  = (λ n, n + length (filter (λ img, img_classId img = c) imgs)) <$> m !! c.
Proof.
  revert m. induction imgs as [|i imgs IH]; intros m; simpl.
  - destruct (m !! c); simpl; [f_equal; lia | done].
  - rewrite IH. unfold countImage.
    destruct (decide (img_classId i = c)) as [Hc|Hc].
    + rewrite filter_cons_True by exact Hc. rewrite Hc.
      destruct (m !! c) eqn:Hm; simpl.
      * rewrite lookup_insert_eq. simpl. f_equal. lia.
      * by rewrite Hm.
    + rewrite filter_cons_False by exact Hc.
      destruct (m !! img_classId i); [|done].
      by rewrite lookup_insert_ne.
Qed.

(** The count kept for a class id: the number of stored images that
    carry it, and no entry at all for any other id. *)
Lemma classCounts_lookup (db : Store) (c : Z) :
  classCounts (getDataSummary db) !! c
  = if decide (c ∈ (cls_id <$> classes db))
    then Some (length (getImagesByClass c db)) else None.
Proof.
  unfold getDataSummary. simpl. rewrite countImage_lookup, zeroCounts_lookup.
  unfold getClasses, getAllImages, getImagesByClass. by case_decide.
Qed.

End StorageFacts.

Module StoreClaims.

Import Storage StorageFacts.


(** C10.  [getDataSummary()] counts every stored image in [totalImages],
    while [classCounts] has exactly the ids of the stored classes as keys
    and, under each, the number of images carrying that id; an image whose
    [classId] matches no class raises [totalImages] and leaves
    [classCounts] alone.  So the check [handleStartTraining] makes on
    the summary passes as soon as two classes and four images are
    stored, whatever classes the images point to: the call goes on to
    read the images of the classes on the page. *)
Theorem getDataSummary_counts_orphans (db : Store) :
  totalImages (getDataSummary db) = length (images db)
  ∧ dom (classCounts (getDataSummary db)) = list_to_set (cls_id <$> classes db)
  ∧ (∀ c, c ∈ (cls_id <$> classes db) →
       classCounts (getDataSummary db) !! c
       = Some (length (getImagesByClass c db)))
  ∧ (∀ k data, k ∉ (cls_id <$> classes db) →
       let db' := (addImage k data None db).2 in
       classCounts (getDataSummary db') = classCounts (getDataSummary db)
       ∧ totalImages (getDataSummary db') = S (totalImages (getDataSummary db)))
  ∧ (∀ params s,
       2 ≤ length (classes db) → 4 ≤ length (images db) →
       App.afterSummary params (Resolved (getDataSummary db)) s
       = App.startLoop params [] (app_classes (Model.app s)) s).
Proof.
  split; [done|]. split; [|split; [|split]].
  - apply set_eq. intros c.
    rewrite elem_of_dom, classCounts_lookup, elem_of_list_to_set.
    case_decide as Hc; split; [done | by eauto | by intros [? ?] | done].
  - intros c Hc. rewrite classCounts_lookup. by case_decide.
  - intros k data Hk db'.
    assert (Hcl : classes db' = classes db) by done.
    assert (Him : images db' = images db ++ [mkImage (imageKey db) k data])
      by done.
    split.
    + apply map_eq. intros c. rewrite !classCounts_lookup, Hcl.
      case_decide as Hc; [|done]. f_equal.
      unfold getImagesByClass. rewrite Him, filter_app, length_app.
      rewrite filter_cons_False, filter_nil; [simpl; lia|].
      simpl. intros ->. by apply Hk.
    + unfold getDataSummary, getAllImages. cbn [totalImages].
      rewrite Him, length_app. simpl. lia.
  - intros params s H2 H4. unfold App.afterSummary.
    simpl. unfold getClasses, getAllImages.
    by rewrite !bool_decide_eq_false_2 by lia.
Qed.

(** *** The claims on sample data *)

Section OnSamples.

Import Model App Samples.


Lemma getDataSummary_counts_orphans_witness :
  totalImages (getDataSummary orphanStore) = 4
  ∧ classCounts (getDataSummary orphanStore) !! 1%Z = Some 0
  ∧ classCounts (getDataSummary orphanStore) !! 2%Z = Some 0
  ∧ classCounts (getDataSummary orphanStore) !! 7%Z = None
  ∧ afterSummary params3 (Resolved (getDataSummary orphanStore)) page
    = (page, OnImages params3 [] cat [dog]).
Proof.
  destruct (getDataSummary_counts_orphans orphanStore)
    as (Htotal & _ & Hcount & _ & Hpass).
  split; [exact Htotal|].
  split; [apply (Hcount 1%Z); vm_compute; by left|].
  split; [apply (Hcount 2%Z); vm_compute; right; by left|].
  split; [reflexivity|].
  apply (Hpass params3 page); simpl; lia.
Defined.

End OnSamples.

End StoreClaims.

(** ** Class management *)

Module ClassClaims.

Import Storage App.

Section Builtins.

Variable trim : string → string.
Variable toLowerCase : string → string.

(** C9, as the code has it.  When the trimmed name is empty or equals an
    existing name up to letter case, [handleAddClass] leaves the class
    list and the store as they are.  Otherwise it issues one
    [storage.addClass]: when that succeeds, exactly one class with the
    trimmed name is appended, to the list and to the store; when it fails,
    the list and the store are left as they are. *)
Theorem handleAddClass_rejects_duplicates
    (input : string) (fault : option Error) (a : AppState) (db : Store) :
  let name := trim input in
  let duplicate :=
    Exists (λ c, toLowerCase (cls_name c) = toLowerCase name) (app_classes a) in
  let '(a', db', _) := handleAddClass trim toLowerCase input fault a db in
  (name = EmptyString ∨ duplicate → a' = a ∧ db' = db)
  ∧ (name ≠ EmptyString → ¬ duplicate →
       (fault = None →
          ∃ id, app_classes a' = app_classes a ++ [mkClass id name]
                ∧ classes db' = classes db ++ [mkClass id name]
                ∧ images db' = images db)
       ∧ (∀ e, fault = Some e → a' = a ∧ db' = db)).
Proof.
  intros name duplicate. unfold handleAddClass. fold name. fold duplicate.
  destruct (bool_decide_reflect (name = EmptyString)) as [He|He].
  { split; [done|]. intros Hne. by destruct Hne. }
  destruct (bool_decide_reflect duplicate) as [Hd|Hd].
  { split; [done|]. intros _ Hnd. by destruct Hnd. }
  destruct fault as [e|]; simpl.
  - split; [by intros [?|?]|]. intros _ _. split; [done|]. by intros e' _.
  - split; [by intros [?|?]|]. intros _ _. split; [|done]. intros _.
    exists (classKey db). split; [|done].
    unfold updateClassSelector. simpl.
    destruct (app_classes a ++ _) eqn:Happ; [done|].
    by destruct (_ || _).
Qed.

End Builtins.

(** C9, as stated, fails when the store refuses the write: the name is
    new and not empty, yet no class is appended. *)
Lemma handleAddClass_store_failure :
  Ascii7.trim " Cat " ≠ EmptyString
  ∧ ¬ Exists (λ c, Ascii7.toLowerCase (cls_name c)
                   = Ascii7.toLowerCase (Ascii7.trim " Cat "))
             (app_classes Samples.noClasses)
  ∧ handleAddClass Ascii7.trim Ascii7.toLowerCase " Cat "
      (Some Samples.quotaExceeded) Samples.noClasses emptyStore
    = (Samples.noClasses, emptyStore,
       [EConsoleError "Error adding class:" Samples.quotaExceeded;
        EToast "Failed to add class" TError]).
Proof.
  split; [done|]. split; [|reflexivity].
  intros H. by apply Exists_nil in H.
Qed.

(** *** The claims on sample data *)

Section OnSamples.

Import Samples.

Lemma handleAddClass_rejects_duplicates_witness :
  (handleAddClass Ascii7.trim Ascii7.toLowerCase "  CAT "
     None (mkApp [cat] (Some 1%Z) false false) oneClassStore).1
  = (mkApp [cat] (Some 1%Z) false false, oneClassStore)
  ∧ ∃ id,
      app_classes
        (handleAddClass Ascii7.trim Ascii7.toLowerCase " Dog "
           None (mkApp [cat] (Some 1%Z) false false) oneClassStore).1.1
      = [cat; mkClass id "Dog"].
Proof.
  split.
  - pose proof (handleAddClass_rejects_duplicates
                  Ascii7.trim Ascii7.toLowerCase "  CAT " None
                  (mkApp [cat] (Some 1%Z) false false) oneClassStore) as H.
    cbv zeta in H.
    destruct (handleAddClass Ascii7.trim Ascii7.toLowerCase "  CAT " None
                (mkApp [cat] (Some 1%Z) false false) oneClassStore)
      as [[a' db'] evs].
    destruct H as [Hrej _]. destruct Hrej as [-> ->]; [|reflexivity].
    right. apply Exists_cons. left. vm_compute. reflexivity.
  - pose proof (handleAddClass_rejects_duplicates
                  Ascii7.trim Ascii7.toLowerCase " Dog " None
                  (mkApp [cat] (Some 1%Z) false false) oneClassStore) as H.
    cbv zeta in H.
    destruct (handleAddClass Ascii7.trim Ascii7.toLowerCase " Dog " None
                (mkApp [cat] (Some 1%Z) false false) oneClassStore)
      as [[a' db'] evs].
    destruct H as [_ Hadd]. destruct Hadd as [Hok _].
    + vm_compute. discriminate.
    + intros Hdup. apply Exists_cons in Hdup as [Hd|Hd].
      * vm_compute in Hd. discriminate Hd.
      * by apply Exists_nil in Hd.
    + destruct (Hok eq_refl) as (id & Happ & _). exists id. exact Happ.
Defined.

End OnSamples.

End ClassClaims.

(** ** The training loop *)

Module TrainFacts.

Import Model App Trace.

Lemma epochEnds_app (a b : list Event) :
  epochEnds (a ++ b) = epochEnds a ++ epochEnds b.
Proof. apply omap_app. Qed.

Lemma fits_app (a b : list Event) : fits (a ++ b) = fits a ++ fits b.
Proof. apply omap_app. Qed.

Lemma outcomes_app (a b : list Event) :
  outcomes (a ++ b) = outcomes a ++ outcomes b.
Proof. apply omap_app. Qed.

Lemma disposals_app (t : Tensor) (a b : list Event) :
  disposals t (a ++ b) = disposals t a + disposals t b.
Proof. unfold disposals. by rewrite filter_app, length_app. Qed.

Lemma seq_snoc (k : nat) : seq 0 (S k) = seq 0 k ++ [k].
Proof. by rewrite seq_S. Qed.

(** Events of the loop are neither outcomes nor disposals. *)
Lemma inLoop_quiet (t : Tensor) (tr : list Event) :
  forallb inLoop tr = true → outcomes tr = [] ∧ disposals t tr = 0.
Proof.
  induction tr as [|e tr IH]; [done|]. simpl.
  intros [He Htr]%andb_true_iff. destruct (IH Htr) as [IH1 IH2].
  unfold disposals in *. destruct e; try done; simpl.
  all: rewrite filter_cons_False by done; done.
Qed.

Lemma since_app (s s' : Session) (new : list Event) :
  log s' = log s ++ new → since s s' = new.
Proof. intros H. unfold since. by rewrite H, drop_app_length. Qed.

#[local] Arguments seq : simpl never.

Ltac flags :=
  repeat (simpl; match goal with
  | |- context [bool_decide ?P] => destruct (bool_decide_reflect P)
  | |- context [if ?b then _ else _] => is_var b; destruct b
  | |- context [andb ?b _] => is_var b; destruct b
  | |- context [negb ?b] => is_var b; destruct b
  end); simpl.

Ltac crush_step :=
  unfold Inv; simpl; unfold handlePauseTraining, handleStopTraining, loopHead, pauseWait,
    trainCatch, trainEnd, catchStart; simpl; flags;
  rewrite <- ?app_assoc; simpl.

Ltac obs Hq He Hf :=
  rewrite ?seq_snoc, ?fmap_app, ?forallb_app, ?epochEnds_app, ?fits_app,
    ?Hq, ?He, ?Hf, ?seq_snoc; cbn -[seq];
  rewrite ?app_nil_r; try done; try lia.

Ltac session s :=
  let p := fresh "p" in let m := fresh "m" in let a := fresh "a" in
  let l := fresh "l" in
  destruct s as [p m a l]; destruct m as [?cl ?t ?ps ?st ?ce];
  destruct a as [?cs ?sel ?it ?ip].

Ltac input i :=
  let c := fresh "c" in destruct i as [i| |c]; [destruct i| |].

Section Run.

Variable trainingData : TrainingData.
Variable params : Params.

Abbreviation appStep := (App.appStep trainingData params).
Abbreviation appRun := (App.appRun trainingData params).

Lemma appStep_log (s : Session) (i : AppInput) :
  ∃ new, log (appStep s i) = log s ++ new.
Proof.
  destruct s as [p m a l], m as [cl t ps st ce], a as [cs sel it ip].
  destruct i as [i| |c]; [destruct i| |];
    destruct p as [| |k|k|[b|e0]]; simpl;
    unfold handlePauseTraining, handleStopTraining, loopHead, pauseWait; simpl; flags;
    rewrite <- ?app_assoc;
    try (by exists []; rewrite app_nil_r);
    try (by eexists; reflexivity).
Qed.


Lemma appStep_Inv (l0 : list Event) (s : Session) (i : AppInput) :
  Inv (epochs params) l0 s → Inv (epochs params) l0 (appStep s i).
Proof.
  intros (tr & Hlog & Hsh).
  destruct s as [p m a l], m as [cl t ps st ce], a as [cs sel it ip].
  simpl in Hlog. subst l. unfold shape in Hsh. simpl in Hsh.
  destruct p as [| |k|k|[b|e0]]; [done| | | | |].
  - (* await createModel *)
    destruct Hsh as [-> ->]. rewrite app_nil_r.
    destruct i as [i| |c]; [destruct i| |]; crush_step;
      try (exists []; split; [by rewrite app_nil_r|]; done);
      (eexists; split; [reflexivity|]; unfold shape; cbn -[seq]); try done;
      exists [], 0; repeat split; try done; try lia; by left.
  - (* await the timer *)
    destruct Hsh as (Hk & -> & Hq & He & Hf).
    destruct i as [i| |c]; [destruct i| |]; crush_step;
      try (exists tr; split; [done|]; done);
      (eexists; split; [reflexivity|]; unfold shape; cbn -[seq]).
    all: first [ exists tr, k; split; [reflexivity|] | idtac ].
    all: repeat split; obs Hq He Hf.
  - (* await fit *)
    destruct Hsh as (Hk & -> & Hq & He & Hf).
    destruct i as [i| |c]; [destruct i| |]; crush_step;
      try (exists tr; split; [done|]; done);
      (eexists; split; [reflexivity|]; unfold shape; cbn -[seq]).
    all: first [ exists tr, k; split; [reflexivity|]
               | eexists (tr ++ [_]), (S k); split; [by rewrite <- app_assoc|]
               | idtac ].
    all: repeat split; obs Hq He Hf.
    right. by split.
  - (* train returned *)
    destruct i as [i| |c]; [destruct i| |]; crush_step;
      (exists tr; split; [done|]; exact Hsh).
  - (* train threw *)
    destruct i as [i| |c]; [destruct i| |]; crush_step;
      (exists tr; split; [done|]; exact Hsh).
Qed.

Lemma appRun_Inv (l0 : list Event) (ins : list AppInput) (s : Session) :
  Inv (epochs params) l0 s → Inv (epochs params) l0 (App.appRun trainingData params ins s).
Proof.
  revert s. induction ins as [|i ins IH]; intros s H; [done|].
  simpl. apply IH. by apply appStep_Inv.
Qed.

Lemma appRun_log (ins : list AppInput) (s : Session) :
  ∃ new, log (App.appRun trainingData params ins s) = log s ++ new.
Proof.
  revert s. induction ins as [|i ins IH]; intros s.
  - exists []. by rewrite app_nil_r.
  - destruct (IH (appStep s i)) as [n2 H2].
    destruct (appStep_log s i) as [n1 H1].
    exists (n1 ++ n2).
    change (App.appRun trainingData params (i :: ins) s)
      with (App.appRun trainingData params ins (appStep s i)).
    by rewrite H2, H1, app_assoc.
Qed.

Lemma handleStartTraining_started (f : StartFaults) (db : Storage.Store) (s s0 : Session)
    (data : TrainingData) :
  handleStartTraining params f db s = (s0, Awaiting data) →
  app_isTraining (app s) = false
  ∧ pc s0 = PcCreate
  ∧ mm s0 = mkMM [] true false false 0
  ∧ app s0 = setTraining true false (app s)
  ∧ log s0 = log s ++ [EToast "Preparing training data..." TInfo;
                       EAllocate Xs; EAllocate Ys;
                       ETrainingUI "training"; EStartTimer].
Proof.
  unfold handleStartTraining.
  destruct (app_isTraining (app s)) eqn:Hit; [done|].
  destruct (summaryFault f); [done|].
  repeat case_bool_decide; try done.
  assert (Hgo : ∀ cwi (s1 : Session),
    app s1 = app s →
    log s1 = log s ++ [EToast "Preparing training data..." TInfo] →
    match prepareTrainingData cwi (prepareFault f) s1 with
    | (s2, Rejected e) => (catchStart e s2, Returned)
    | (s2, Resolved trainingData) =>
        (trainBegin
           (emit [ETrainingUI "training"; EStartTimer]
                 (setApp (setTraining true false (app s2)) s2)),
         Awaiting trainingData)
    end = (s0, Awaiting data) →
    pc s0 = PcCreate
    ∧ mm s0 = mkMM [] true false false 0
    ∧ app s0 = setTraining true false (app s)
    ∧ log s0 = log s ++ [EToast "Preparing training data..." TInfo;
                         EAllocate Xs; EAllocate Ys;
                         ETrainingUI "training"; EStartTimer]).
  { intros cwi s1 Happ Hlog. unfold prepareTrainingData.
    destruct (loadImages _ _ _ _ _) as [labels [n|e]]; [|done].
    repeat case_bool_decide; try done.
    intros [= <- <-]. simpl. rewrite Happ, Hlog, <- !app_assoc. done. }
  intros Hrun. split; [done|]. revert Hrun.
  destruct (imagesFault f) as [e|];
    [destruct (app_classes (app s)) as [|c cs] eqn:Hcs; [|done]|].
  all: by apply Hgo.
Qed.


(** A [fit] is only ever issued by a task that found both flags unset
    and leaves them unset, with [train] suspended on that [fit]. *)
Lemma fit_step (s : Session) (i : AppInput) (epoch : nat) :
  EFit epoch ∈ since s (appStep s i) →
  (isPaused (mm s) = false ∧ shouldStop (mm s) = false)
  ∧ isPaused (mm (appStep s i)) = false
  ∧ shouldStop (mm (appStep s i)) = false
  ∧ pc (appStep s i) = PcFit epoch.
Proof.
  unfold since. session s.
  input i; destruct p as [| |k|k|[b|e0]]; crush_step;
    rewrite ?drop_app_length, ?drop_all, ?elem_of_cons, ?elem_of_nil;
    intros H; repeat (destruct H as [H|H]); try done;
    by injection H as ->.
Qed.

(** A pause, resume or stop request touches neither the log nor the
    point [train] is suspended at, and cannot clear the cancellation
    flag; an accepted stop request sets it. *)
Lemma control_step (s : Session) (i : AppInput) :
  control i →
  pc (appStep s i) = pc s
  ∧ log (appStep s i) = log s
  ∧ app_isTraining (app (appStep s i)) = app_isTraining (app s)
  ∧ (shouldStop (mm s) = true → shouldStop (mm (appStep s i)) = true)
  ∧ (stops s i → shouldStop (mm (appStep s i)) = true).
Proof.
  session s. unfold control, stops.
  input i; try done; destruct p as [| |k|k|[b|e0]]; crush_step; intros _;
    repeat split; try done; by intros [=].
Qed.

(** Without a stop request and without a failure the cancellation flag
    stays unset and [train] can only return [true]. *)
Lemma calm_step (s : Session) (i : AppInput) :
  calm i → shouldStop (mm s) = false → unspoilt s →
  shouldStop (mm (appStep s i)) = false ∧ unspoilt (appStep s i).
Proof.
  session s. unfold calm, unspoilt. simpl. intros Hc -> Hu.
  input i; try done; destruct p as [| |k|k|[b|e0]]; try done;
    crush_step; done.
Qed.

(** After [train] has settled nothing is logged any more. *)
Lemma terminated_step (s : Session) (i : AppInput) :
  terminated s → pc (appStep s i) = pc s ∧ log (appStep s i) = log s.
Proof.
  session s. unfold terminated. simpl.
  destruct p as [| |k|k|[b|e0]]; try done; intros _;
    input i; crush_step; done.
Qed.

(** The [fit] call of epoch [k] throws. *)
Lemma fit_failed_step (s : Session) (k : nat) (e : Error) :
  pc s = PcFit k →
  pc (appStep s (Runtime (IFitFailed e))) = PcDone (Rejected e)
  ∧ log (appStep s (Runtime (IFitFailed e))) = log s ++ errorBlock e.
Proof.
  session s. simpl. intros ->. crush_step. done.
Qed.

Lemma appRun_cons (i : AppInput) (ins : list AppInput) (s : Session) :
  appRun (i :: ins) s = appRun ins (appStep s i).
Proof. done. Qed.

Lemma appRun_app (ins1 ins2 : list AppInput) (s : Session) :
  appRun (ins1 ++ ins2) s = appRun ins2 (appRun ins1 s).
Proof. apply foldl_app. Qed.

Lemma terminated_run (ins : list AppInput) (s : Session) :
  terminated s → pc (appRun ins s) = pc s ∧ log (appRun ins s) = log s.
Proof.
  revert s. induction ins as [|i ins IH]; intros s Ht; [done|].
  rewrite appRun_cons.
  destruct (terminated_step s i Ht) as [Hpc Hlog].
  destruct (IH (appStep s i)) as [Hpc' Hlog'].
  - unfold terminated. by rewrite Hpc.
  - by rewrite Hpc', Hlog'.
Qed.


Lemma calm_run (ins : list AppInput) (s : Session) :
  Forall calm ins → shouldStop (mm s) = false → unspoilt s →
  shouldStop (mm (appRun ins s)) = false ∧ unspoilt (appRun ins s).
Proof.
  revert s. induction ins as [|i ins IH]; intros s Hc Hst Hu; [done|].
  apply Forall_cons in Hc as [Hi Hc]. rewrite appRun_cons.
  destruct (calm_step s i Hi Hst Hu) as [Hst' Hu'].
  by apply IH.
Qed.

Lemma control_run (ctl : list AppInput) (s : Session) :
  Forall control ctl →
  pc (appRun ctl s) = pc s
  ∧ log (appRun ctl s) = log s
  ∧ (shouldStop (mm s) = true → shouldStop (mm (appRun ctl s)) = true)
  ∧ (Exists (stops s) ctl → shouldStop (mm (appRun ctl s)) = true).
Proof.
  revert s. induction ctl as [|i ctl IH]; intros s Hc.
  - repeat split; try done. intros H. by apply Exists_nil in H.
  - apply Forall_cons in Hc as [Hi Hc]. rewrite appRun_cons.
    destruct (control_step s i Hi)
      as (Hpc & Hlog & Hit & Hkeep & Hstop).
    destruct (IH (appStep s i) Hc) as (Hpc' & Hlog' & Hkeep' & Hstop').
    rewrite Hpc', Hlog'. repeat split; try done.
    + intros Hst. by apply Hkeep', Hkeep.
    + intros [Hs|Hs]%Exists_cons.
      * by apply Hkeep', Hstop.
      * apply Hstop'. eapply Exists_impl; [exact Hs|].
        intros j. unfold stops. by rewrite Hit.
Qed.

(** The timer fires while a stop request is pending. *)
Lemma timer_stopped_step (s : Session) (k : nat) :
  pc s = PcSleep k → shouldStop (mm s) = true →
  pc (appStep s (Runtime ITimer)) = PcDone (Resolved false)
  ∧ log (appStep s (Runtime ITimer)) = log s ++ endBlock false.
Proof.
  session s. simpl. intros -> ->. crush_step; done.
Qed.

(** With both flags unset, one resolved [fit] per remaining epoch takes
    the loop to its end. *)
Lemma fits_run_to_end (hs : list History) (s : Session) (k : nat) :
  pc s = PcFit k → isPaused (mm s) = false → shouldStop (mm s) = false →
  k + length hs = epochs params → hs ≠ [] →
  terminated (appRun ((λ h, Runtime (IFitDone h)) <$> hs) s).
Proof.
  revert s k. induction hs as [|h hs IH]; intros s k Hpc Hp Hst Hlen Hne; [done|].
  rewrite fmap_cons, appRun_cons.
  destruct hs as [|h' hs].
  - clear IH. session s. simpl in *. subst. unfold terminated.
    crush_step; try done. lia.
  - apply (IH _ (S k)); try done; [| | |simpl in *; lia];
      session s; simpl in *; subst; crush_step; try done; lia.
Qed.

(** A run nobody interferes with comes to its end: [createModel]
    resolves and then every [fit] does. *)
Lemma undisturbed_run_completes (hs : list History) (s : Session) :
  pc s = PcCreate → isPaused (mm s) = false → shouldStop (mm s) = false →
  length hs = epochs params →
  Forall calm (Runtime ICreated :: ((λ h, Runtime (IFitDone h)) <$> hs))
  ∧ terminated (appRun (Runtime ICreated :: ((λ h, Runtime (IFitDone h)) <$> hs)) s).
Proof.
  intros Hpc Hp Hst Hlen. split.
  - apply Forall_cons. split; [done|]. apply Forall_fmap.
    by apply Forall_true.
  - rewrite appRun_cons. destruct hs as [|h hs].
    + session s. simpl in *. subst. unfold terminated. crush_step; try done. lia.
    + apply (fits_run_to_end _ _ 0); try done;
        session s; simpl in *; subst; crush_step; try done; lia.
Qed.
End Run.

(** A started session satisfies the invariant with nothing logged yet. *)
Lemma started_Inv (params : Params) (f : StartFaults) (db : Storage.Store)
    (s s0 : Session) (data : TrainingData) (ins : list AppInput) :
  handleStartTraining params f db s = (s0, Awaiting data) →
  Inv (epochs params) (log s0) (appRun data params ins s0).
Proof.
  intros (Hidle & Hpc & Hmm & Happ & Hlog)%handleStartTraining_started.
  apply appRun_Inv. exists []. split; [by rewrite app_nil_r|].
  unfold shape. rewrite Hpc, Happ. done.
Qed.

Lemma started_since (params : Params) (f : StartFaults) (db : Storage.Store)
    (s s0 : Session) (data : TrainingData) (ins : list AppInput) :
  handleStartTraining params f db s = (s0, Awaiting data) →
  log (appRun data params ins s0) = log s0 ++ since s0 (appRun data params ins s0)
  ∧ shape (epochs params) (appRun data params ins s0)
          (since s0 (appRun data params ins s0)).
Proof.
  intros H. destruct (started_Inv params f db s s0 data ins H) as (tr & Hlog & Hsh).
  by rewrite (since_app _ _ _ Hlog).
Qed.

End TrainFacts.

Module TrainClaims.

Import Model App Trace TrainFacts.

#[local] Arguments seq : simpl never.

(** C1.  A run started by [handleStartTraining] that receives no stop
    request and no failure and in which [train] settles has [train]
    return [true]; since the start exactly [epochs] progress events were
    reported through [onEpochEnd], for the epochs 0, 1, ..., [epochs - 1]
    in this order and each with the epoch count, all of them before the
    single outcome, which is [onTrainingEnd(true)]. *)
Theorem completed_run_reports_every_epoch
    (params : Params) (f : StartFaults) (db : Storage.Store)
    (s s0 : Session) (data : TrainingData) (ins : list AppInput) :
  handleStartTraining params f db s = (s0, Awaiting data) →
  Forall calm ins →
  terminated (appRun data params ins s0) →
  let tr := since s0 (appRun data params ins s0) in
  pc (appRun data params ins s0) = PcDone (Resolved true)
  ∧ epochEnds tr = (λ i, (i, epochs params)) <$> seq 0 (epochs params)
  ∧ outcomes tr = [Resolved true]
  ∧ ∃ pre, tr = pre ++ endBlock true
      ∧ forallb inLoop pre = true
      ∧ epochEnds pre = epochEnds tr.
Proof.
  intros Hstart Hcalm Hterm tr.
  destruct (started_since params f db s s0 data ins Hstart) as [_ Hsh].
  fold tr in Hsh.
  destruct (handleStartTraining_started params f db s s0 data Hstart)
    as (_ & Hpc0 & Hmm0 & _).
  destruct (calm_run data params ins s0 Hcalm) as [_ Hu].
  { by rewrite Hmm0. }
  { unfold unspoilt. by rewrite Hpc0. }
  unfold terminated in Hterm. unfold unspoilt in Hu. unfold shape in Hsh.
  destruct (pc (appRun data params ins s0)) as [| | | |[b|e]]; try done.
  subst b. destruct Hsh as (pre & k & Htr & Hk & Hall & Hq & He & Hf).
  pose proof (Hall eq_refl) as Hk'. subst k. rewrite Htr.
  destruct (inLoop_quiet Xs pre Hq) as [Hout _].
  split; [done|].
  split; [rewrite epochEnds_app, He; apply app_nil_r|].
  split; [by rewrite outcomes_app, Hout|].
  exists pre. split; [done|]. split; [done|].
  rewrite epochEnds_app. symmetry. apply app_nil_r.
Qed.

(** C2.  In a run started by [handleStartTraining] the tensors [xs] and
    [ys] are not disposed of while [train] is suspended, and once [train]
    has settled, however it did and whatever runs afterwards, each of
    them has been disposed of exactly once and exactly one outcome has
    been reported, the one [train] settled with. *)
Theorem tensors_disposed_exactly_once
    (params : Params) (f : StartFaults) (db : Storage.Store)
    (s s0 : Session) (data : TrainingData) (ins : list AppInput) :
  handleStartTraining params f db s = (s0, Awaiting data) →
  let s' := appRun data params ins s0 in
  let tr := since s0 s' in
  (active s' → disposals Xs tr = 0 ∧ disposals Ys tr = 0)
  ∧ (terminated s' →
       disposals Xs tr = 1 ∧ disposals Ys tr = 1
       ∧ ∃ r, pc s' = PcDone r ∧ outcomes tr = [r]).
Proof.
  intros Hstart s' tr.
  destruct (started_since params f db s s0 data ins Hstart) as [_ Hsh].
  fold s' tr in Hsh. unfold shape in Hsh. unfold active, terminated.
  destruct (pc s') as [| |k|k|[b|e]]; try done.
  - destruct Hsh as [-> _]. done.
  - destruct Hsh as (_ & _ & Hq & _).
    split; [|done]. intros _.
    split; [apply (inLoop_quiet Xs _ Hq) | apply (inLoop_quiet Ys _ Hq)].
  - destruct Hsh as (_ & _ & Hq & _).
    split; [|done]. intros _.
    split; [apply (inLoop_quiet Xs _ Hq) | apply (inLoop_quiet Ys _ Hq)].
  - destruct Hsh as (pre & k & -> & _ & _ & Hq & _).
    split; [done|]. intros _.
    destruct (inLoop_quiet Xs pre Hq) as [Hout HX].
    destruct (inLoop_quiet Ys pre Hq) as [_ HY].
    rewrite !disposals_app, HX, HY, outcomes_app, Hout.
    split; [by destruct b|]. split; [by destruct b|].
    exists (Resolved b). by destruct b.
  - destruct Hsh as (pre & k & -> & _ & Hq & _).
    split; [done|]. intros _.
    destruct (inLoop_quiet Xs pre Hq) as [Hout HX].
    destruct (inLoop_quiet Ys pre Hq) as [_ HY].
    rewrite !disposals_app, HX, HY, outcomes_app, Hout.
    split; [done|]. split; [done|]. by exists (Rejected e).
Qed.

(** C6.  When the [fit] call of epoch [n] throws [e], the session is over:
    [train] rejects with [e] itself, [onTrainingError(e)] is the only
    outcome reported, both tensors are disposed of once, and before the
    failure the log holds the progress events of the epochs 0 to [n - 1]
    and one [fit] call for each of the epochs 0 to [n], so no event for
    epoch [n], no second attempt and no later epoch. *)
Theorem fit_failure_aborts_session
    (params : Params) (f : StartFaults) (db : Storage.Store)
    (s s0 : Session) (data : TrainingData)
    (ins1 ins2 : list AppInput) (n : nat) (e : Error) :
  handleStartTraining params f db s = (s0, Awaiting data) →
  pc (appRun data params ins1 s0) = PcFit n →
  let s' := appRun data params (ins1 ++ Runtime (IFitFailed e) :: ins2) s0 in
  let tr := since s0 s' in
  pc s' = PcDone (Rejected e)
  ∧ outcomes tr = [Rejected e]
  ∧ disposals Xs tr = 1 ∧ disposals Ys tr = 1
  ∧ ∃ pre, tr = pre ++ errorBlock e
      ∧ forallb inLoop pre = true
      ∧ epochEnds pre = (λ i, (i, epochs params)) <$> seq 0 n
      ∧ fits pre = seq 0 (S n).
Proof.
  intros Hstart Hpc s' tr.
  destruct (started_since params f db s s0 data ins1 Hstart) as [Hlog1 Hsh].
  unfold shape in Hsh. rewrite Hpc in Hsh.
  destruct Hsh as (_ & _ & Hq & He & Hf).
  destruct (fit_failed_step data params _ n e Hpc) as [Hpc2 Hlog2].
  assert (Hs' : pc s' = PcDone (Rejected e)
                ∧ log s' = log s0 ++ since s0 (appRun data params ins1 s0)
                                  ++ errorBlock e).
  { unfold s'. rewrite appRun_app, appRun_cons.
    destruct (terminated_run data params ins2
                (appStep data params (appRun data params ins1 s0)
                   (Runtime (IFitFailed e)))) as [Hpc3 Hlog3].
    { unfold terminated. by rewrite Hpc2. }
    rewrite Hpc3, Hlog3, Hpc2, Hlog2. split; [done|].
    rewrite Hlog1 at 1. by rewrite <- app_assoc. }
  destruct Hs' as [Hpc' Hlog'].
  assert (Htr : tr = since s0 (appRun data params ins1 s0) ++ errorBlock e).
  { unfold tr. by apply since_app. }
  destruct (inLoop_quiet Xs _ Hq) as [Hout HX].
  destruct (inLoop_quiet Ys _ Hq) as [_ HY].
  rewrite Htr, !disposals_app, HX, HY, outcomes_app, Hout.
  split; [done|]. split; [done|]. split; [done|]. split; [done|].
  by eexists.
Qed.

(** C4.  A task that issues a [fit] call finds both the pause flag and
    the cancellation flag unset and leaves them unset, so no epoch begins
    while the loop is paused; and when a session waiting in the pause
    loop receives pause, resume and stop requests in any order, at least
    one accepted stop among them, the next firing of the timer ends the
    run as stopped without another [fit] call. *)
Theorem paused_loop_never_fits_and_stop_wins
    (params : Params) (data : TrainingData) (s : Session) :
  (∀ i epoch,
     EFit epoch ∈ since s (appStep data params s i) →
     (isPaused (mm s) = false ∧ shouldStop (mm s) = false)
     ∧ isPaused (mm (appStep data params s i)) = false
     ∧ shouldStop (mm (appStep data params s i)) = false)
  ∧ (∀ k ctl,
       pc s = PcSleep k → Forall control ctl → Exists (stops s) ctl →
       let s' := appRun data params (ctl ++ [Runtime ITimer]) s in
       pc s' = PcDone (Resolved false)
       ∧ since s s' = endBlock false).
Proof.
  split.
  - intros i epoch H.
    destruct (fit_step data params s i epoch H) as (? & ? & ? & _). done.
  - intros k ctl Hpc Hctl Hstop s'.
    destruct (control_run data params ctl s Hctl) as (Hpc1 & Hlog1 & _ & Hst).
    specialize (Hst Hstop).
    destruct (timer_stopped_step data params (appRun data params ctl s) k)
      as [Hpc2 Hlog2]; [by rewrite Hpc1 | done |].
    unfold s'. rewrite appRun_app. split; [done|].
    apply since_app.
    change (log (appStep data params (appRun data params ctl s) (Runtime ITimer))
            = log s ++ endBlock false).
    by rewrite Hlog2, Hlog1.
Qed.


(** *** The claims on sample data *)

Section OnSamples.

Import Samples.

Lemma completed_run_reports_every_epoch_witness :
  epochEnds (since session0 (appRun data4 params3 plainRun session0))
  = [(0, 3); (1, 3); (2, 3)]
  ∧ outcomes (since session0 (appRun data4 params3 plainRun session0))
    = [Resolved true].
Proof.
  destruct (completed_run_reports_every_epoch
              params3 noFaults smallStore page session0 data4 plainRun)
    as (_ & Hends & Hout & _).
  - reflexivity.
  - repeat constructor.
  - vm_compute. exact I.
  - split; [exact Hends | exact Hout].
Defined.

Lemma tensors_disposed_exactly_once_witness :
  disposals Xs (since session0 (appRun data4 params3 plainRun session0)) = 1
  ∧ disposals Ys (since session0 (appRun data4 params3 plainRun session0)) = 1.
Proof.
  destruct (tensors_disposed_exactly_once
              params3 noFaults smallStore page session0 data4 plainRun)
    as (_ & Hdone); [reflexivity|].
  destruct Hdone as (HX & HY & _); [vm_compute; exact I|].
  split; [exact HX | exact HY].
Defined.

Lemma fit_failure_aborts_session_witness :
  pc (appRun data4 params3
        ([Runtime ICreated; fitDone] ++ [Runtime (IFitFailed outOfMemory)])
        session0)
  = PcDone (Rejected outOfMemory)
  ∧ epochEnds (since session0
       (appRun data4 params3
          ([Runtime ICreated; fitDone] ++ [Runtime (IFitFailed outOfMemory)])
          session0))
    = [(0, 3)].
Proof.
  destruct (fit_failure_aborts_session
              params3 noFaults smallStore page session0 data4
              [Runtime ICreated; fitDone] [] 1 outOfMemory)
    as (Hpc & _ & _ & _ & pre & Htr & _ & Hends & _).
  - reflexivity.
  - reflexivity.
  - split; [exact Hpc|]. rewrite Htr, epochEnds_app, Hends. reflexivity.
Defined.

Lemma paused_loop_never_fits_and_stop_wins_witness :
  ((isPaused (mm session0) = false ∧ shouldStop (mm session0) = false)
   ∧ isPaused (mm fitting0) = false ∧ shouldStop (mm fitting0) = false)
  ∧ pc (appRun data4 params3
          ([ClickStop true; ClickPause] ++ [Runtime ITimer]) waiting1)
    = PcDone (Resolved false).
Proof.
  split.
  - destruct (paused_loop_never_fits_and_stop_wins
                params3 data4 session0) as [Hfit _].
    apply (Hfit (Runtime ICreated) 0). vm_compute. by left.
  - destruct (paused_loop_never_fits_and_stop_wins
                params3 data4 waiting1) as [_ Hstop].
    apply (Hstop 1 [ClickStop true; ClickPause]).
    + reflexivity.
    + repeat constructor.
    + apply Exists_cons. left. reflexivity.
Defined.


End OnSamples.

End TrainClaims.

(** ** Starting a session *)

Module StartClaims.

Import Storage Model App Trace TrainFacts.

(** [handleStartTraining] catches whatever is thrown inside it. *)
Lemma handleStartTraining_never_throws (params : Params) (f : StartFaults)
    (db : Store) (s : Session) (e : Error) :
  (handleStartTraining params f db s).2 ≠ Threw e.
Proof.
  unfold handleStartTraining.
  destruct (app_isTraining (app s)); [done|].
  destruct (summaryFault f); [done|].
  repeat case_bool_decide; try done.
  destruct (imagesFault f), (app_classes (app s)); try done.
  all: by destruct (prepareTrainingData _ _ _) as [? [?|?]].
Qed.

(** The guard reads [state.isTraining] and nothing else: with the flag
    unset the call goes on to its first [await], whatever the model
    manager is doing. *)
Lemma start_guard_reads_the_flag (s : Session) :
  app_isTraining (app s) = false → startEntry s = (s, OnSummary).
Proof. unfold startEntry. by intros ->. Qed.

(** One step of a call leaves the flag unset unless it enters [train]. *)
Lemma startResume_flag (params : Params) (f : StartFaults) (db : Store)
    (w : StartPc) (s : Session) :
  app_isTraining (app s) = false →
  match (startResume params f db w s).2 with
  | OnTrain _ _ => True
  | _ => app_isTraining (app (startResume params f db w s).1) = false
  end.
Proof.
  intros Hit. destruct w as [| |p cwi cls rest|p cwi|p d]; simpl; try done.
  - unfold afterSummary, settle. destruct (summaryFault f); [done|].
    repeat case_bool_decide; try done.
    unfold startLoop. by destruct (app_classes (app s)).
  - unfold afterImages, settle. destruct (imagesFault f); [done|].
    unfold startLoop. by destruct rest.
  - unfold prepareTrainingData.
    destruct (loadImages _ _ _ _ _) as [labels [n|e]]; [|done].
    repeat case_bool_decide; done.
Qed.

(** The flag stays unset for as long as a call is reading: from the
    guard to the step that enters [train], a further call passes the
    guard as the first one did. *)
Lemma start_window (params : Params) (f : StartFaults) (db : Store)
    (n : nat) (w : StartPc) (s : Session) :
  app_isTraining (app s) = false →
  match (startSteps params f db n w s).2 with
  | OnTrain _ _ => True
  | _ => startEntry (startSteps params f db n w s).1
         = ((startSteps params f db n w s).1, OnSummary)
  end.
Proof.
  revert w s. induction n as [|n IH]; intros w s Hit.
  - simpl. destruct w; try done; by apply start_guard_reads_the_flag.
  - simpl. pose proof (startResume_flag params f db w s Hit) as Hstep.
    destruct (startResume params f db w s) as [s' w'] eqn:Hres.
    simpl in Hstep. destruct w'; try (by apply IH).
    clear IH. induction n as [|n IHn]; [done|]. simpl. apply IHn.
Qed.

(** C3, as the code has it.  The guard of [handleStartTraining] reads
    [state.isTraining] and nothing else.  When the flag is set, a call
    returns at the guard, before its first [await]: it raises nothing,
    logs nothing and leaves the whole state as it is, whatever the state
    and whatever its arguments.  When the flag is not set, the call
    passes the guard whatever the model manager is doing, and the flag
    stays unset until the call enters [train]: up to then a further call
    passes the guard as well. *)
Theorem start_ignored_while_active
    (params : Params) (f : StartFaults) (db : Store) (s : Session) :
  (app_isTraining (app s) = true →
     startEntry s = (s, StartReturned)
     ∧ (∀ n, startSteps params f db n (startEntry s).2 (startEntry s).1
             = (s, StartReturned))
     ∧ handleStartTraining params f db s = (s, Returned))
  ∧ (app_isTraining (app s) = false →
     startEntry s = (s, OnSummary)
     ∧ ∀ n, match (startSteps params f db n OnSummary s).2 with
            | OnTrain _ _ => True
            | _ => startEntry (startSteps params f db n OnSummary s).1
                   = ((startSteps params f db n OnSummary s).1, OnSummary)
            end).
Proof.
  split.
  - intros Hit. unfold startEntry, handleStartTraining. rewrite Hit.
    split_and!; try done.
    induction n as [|n IH]; [done|]. simpl. apply IH.
  - intros Hit. split; [by apply start_guard_reads_the_flag|].
    intros n. by apply start_window.
Qed.

(** C7, as the code has it.  When no session is active and the summary
    read from the store shows fewer than two classes or fewer than four
    images, [handleStartTraining] returns after one warning toast: it
    raises nothing, allocates nothing, does not enter [train] and leaves
    the model manager and the application state as they are. *)
Theorem start_refused_on_small_data
    (params : Params) (f : StartFaults) (db : Store) (s : Session) :
  app_isTraining (app s) = false →
  summaryFault f = None →
  length (classes db) < 2 ∨ length (images db) < 4 →
  ∃ s' msg,
    handleStartTraining params f db s = (s', Returned)
    ∧ pc s' = pc s ∧ mm s' = mm s ∧ app s' = app s
    ∧ log s' = log s ++ [EToast msg TWarning]
    ∧ (msg = "You need at least 2 classes to train"
       ∨ msg = "You need at least 4 images to train").
Proof.
  intros Hidle Hread Hsmall. unfold handleStartTraining.
  rewrite Hidle, Hread. simpl. unfold getClasses, getAllImages.
  destruct (bool_decide_reflect (length (classes db) < 2)) as [H2|H2].
  { eexists _, _. repeat split; eauto. }
  destruct (bool_decide_reflect (length (images db) < 4)) as [H4|H4].
  { eexists _, _. repeat split; eauto. }
  lia.
Qed.

(** C3, as stated, fails: a second start during the first epoch comes
    back as an ordinary return with nothing logged, not as an error. *)
Lemma start_while_active_is_silent :
  active Samples.fitting0
  ∧ handleStartTraining Samples.params3 noFaults Samples.smallStore
      Samples.fitting0
    = (Samples.fitting0, Returned)
  ∧ ¬ ∃ e, (handleStartTraining Samples.params3 noFaults Samples.smallStore
              Samples.fitting0).2 = Threw e.
Proof.
  split; [exact I|]. split; [reflexivity|]. intros [e H]. discriminate H.
Qed.

(** [train] itself has no such guard: entered again while a session
    waits in the pause loop, it resets the flags of that session. *)
Lemma train_entry_resets_flags :
  mm Samples.waiting1 = mkMM [] true true false 1
  ∧ mm (trainBegin Samples.waiting1) = mkMM [] true false false 0.
Proof. split; reflexivity. Qed.

(** Nor does the guard cover a call that is still reading.  A second
    call made while the first awaits the summary passes the guard; the
    first call then enters [train] and its first epoch is being fitted;
    the second call, going through the same steps, enters [train] as
    well, with a second pair of tensors. *)
Lemma overlapping_start_is_not_ignored :
  let first := startEntry Samples.page in
  let second := startEntry first.1 in
  let started :=
    startSteps Samples.params3 noFaults Samples.smallStore 4 first.2 second.1 in
  let running :=
    appRun Samples.data4 Samples.params3 [Runtime ICreated] started.1 in
  let again :=
    startSteps Samples.params3 noFaults Samples.smallStore 4 second.2 running in
  second.2 = OnSummary
  ∧ started.2 = OnTrain Samples.params3 Samples.data4
  ∧ pc running = PcFit 0
  ∧ app_isTraining (app running) = true
  ∧ again.2 = OnTrain Samples.params3 Samples.data4
  ∧ pc again.1 = PcCreate
  ∧ length (filter (λ e, e = EAllocate Xs) (log again.1)) = 2.
Proof. by vm_compute. Qed.

(** C7, as stated, fails: with a single class stored the call returns
    normally after a warning toast; nothing is thrown. *)
Lemma start_on_small_data_returns :
  length (classes Samples.oneClassStore) < 2
  ∧ handleStartTraining Samples.params3 noFaults Samples.oneClassStore
      (idleSession [Samples.cat])
    = (emit [EToast "You need at least 2 classes to train" TWarning]
            (idleSession [Samples.cat]), Returned)
  ∧ ¬ ∃ e, (handleStartTraining Samples.params3 noFaults
              Samples.oneClassStore (idleSession [Samples.cat])).2 = Threw e.
Proof.
  split; [simpl; lia|]. split; [reflexivity|]. intros [e H]. discriminate H.
Qed.

(** *** The claims on sample data *)

Section OnSamples.

Import Samples.

Lemma start_ignored_while_active_witness :
  handleStartTraining params3 noFaults oneClassStore fitting0
  = (fitting0, Returned)
  ∧ startEntry (startSteps params3 noFaults smallStore 2 OnSummary page).1
    = ((startSteps params3 noFaults smallStore 2 OnSummary page).1, OnSummary).
Proof.
  split.
  - destruct (start_ignored_while_active params3 noFaults oneClassStore fitting0)
      as [Hset _].
    destruct Hset as (_ & _ & Hcall); [reflexivity | exact Hcall].
  - destruct (start_ignored_while_active params3 noFaults smallStore page)
      as [_ Hunset].
    destruct Hunset as [_ Hwindow]; [reflexivity | exact (Hwindow 2)].
Defined.

Lemma start_refused_on_small_data_witness :
  ∃ s' msg,
    handleStartTraining params3 noFaults oneClassStore (idleSession [cat])
    = (s', Returned)
    ∧ pc s' = PcIdle ∧ mm s' = newModelManager
    ∧ app s' = mkApp [cat] None false false
    ∧ log s' = [EToast msg TWarning].
Proof.
  destruct (start_refused_on_small_data
              params3 noFaults oneClassStore (idleSession [cat]))
    as (s' & msg & Hrun & Hpc & Hmm & Happ & Hlog & _).
  - reflexivity.
  - reflexivity.
  - left. simpl. lia.
  - exists s', msg. by repeat split.
Defined.

End OnSamples.

End StartClaims.

(** ** More on the store *)

Module StoreMoreFacts.

Import Storage StorageMore StorageFacts.

Lemma deleteImageKey_images (db : Store) (key : Z) :
  images (deleteImageKey db key) = filter (λ img, img_id img ≠ key) (images db).
Proof. done. Qed.

Lemma NoDup_fmap_filter {A B} (f : A → B) (P : A → Prop)
    `{∀ x, Decision (P x)} (l : list A) :
  NoDup (f <$> l) → NoDup (f <$> filter P l).
Proof.
  induction l as [|x l IH]; [done|]. rewrite fmap_cons.
  intros [Hx Hl]%NoDup_cons. destruct (decide (P x)) as [HP|HP].
  - rewrite filter_cons_True by done. rewrite fmap_cons. apply NoDup_cons.
    split; [|by apply IH].
    intros (y & Hy & Hin)%list_elem_of_fmap. apply Hx.
    apply list_elem_of_fmap. exists y. split; [done|].
    by apply list_elem_of_filter in Hin as [_ ?].
  - rewrite filter_cons_False by done. by apply IH.
Qed.

Lemma Forall_filter_keep {A} (P Q : A → Prop) `{∀ x, Decision (P x)}
    (l : list A) :
  Forall Q l → Forall Q (filter P l).
Proof.
  rewrite !Forall_forall. intros HQ x [_ Hin]%list_elem_of_filter. by apply HQ.
Qed.

Lemma wellKeyed_deleteImageKey (db : Store) (key : Z) :
  wellKeyed db → wellKeyed (deleteImageKey db key).
Proof.
  intros (Hc & Hck & Hi & Hik). repeat split; try done; simpl.
  - by apply NoDup_fmap_filter.
  - by apply Forall_filter_keep.
Qed.

Lemma wellKeyed_foldl_delete (imgs : list ImageRec) (db : Store) :
  wellKeyed db →
  wellKeyed (foldl (λ d img, deleteImageKey d (img_id img)) db imgs).
Proof.
  revert db. induction imgs as [|i imgs IH]; intros db Hwf; [done|].
  simpl. apply IH. by apply wellKeyed_deleteImageKey.
Qed.

Lemma wellKeyed_deleteClassKey (db : Store) (key : Z) :
  wellKeyed db → wellKeyed (deleteClassKey db key).
Proof.
  intros (Hc & Hck & Hi & Hik). repeat split; try done; simpl.
  - by apply NoDup_fmap_filter.
  - by apply Forall_filter_keep.
Qed.

Lemma putClass_ids (data : ClassRec) (db : Store) :
  cls_id <$> classes (putClass data db) = cls_id <$> classes db.
Proof.
  unfold putClass. simpl. rewrite <- list_fmap_compose.
  apply list_fmap_ext. intros i c _. simpl. by case_bool_decide.
Qed.

Lemma wellKeyed_putClass (data : ClassRec) (db : Store) :
  wellKeyed db → wellKeyed (putClass data db).
Proof.
  intros (Hc & Hck & Hi & Hik). repeat split; try done.
  - by rewrite putClass_ids.
  - simpl. apply Forall_fmap. eapply Forall_impl; [exact Hck|].
    intros c Hlt. simpl. case_bool_decide as Heq; [|done]. by rewrite <- Heq.
Qed.

Lemma getClass_Some (id : Z) (db : Store) (c : ClassRec) :
  getClass id db = Some c → cls_id c = id ∧ c ∈ classes db.
Proof.
  unfold getClass. intros Hh.
  assert (Hin : c ∈ filter (λ c, cls_id c = id) (classes db)).
  { destruct (filter _ _) as [|x l]; [done|]. injection Hh as ->. by left. }
  by apply list_elem_of_filter in Hin.
Qed.

Lemma getClass_None (id : Z) (db : Store) :
  getClass id db = None ↔ id ∉ (cls_id <$> classes db).
Proof.
  unfold getClass. split.
  - intros Hh (c & Hid & Hin)%list_elem_of_fmap.
    assert (Hc : c ∈ filter (λ c, cls_id c = id) (classes db))
      by by apply list_elem_of_filter.
    destruct (filter _ _); [by apply elem_of_nil in Hc | done].
  - intros Hn. destruct (filter _ _) as [|x l] eqn:Hf; [done|].
    exfalso. apply Hn. apply list_elem_of_fmap. exists x.
    assert (Hx : x ∈ filter (λ c, cls_id c = id) (classes db))
      by (rewrite Hf; by left).
    apply list_elem_of_filter in Hx as [-> Hx]. done.
Qed.

(** X1.  Every operation that writes to the two keyed stores keeps the keys
    unique and below the key generator, whether or not it fails, and a
    key handed out by [addClass] or [addImage] is new to its store. *)
Theorem writes_keep_keys_unique (db : Store) :
  wellKeyed db →
  (∀ name fault, wellKeyed (addClass name fault db).2)
  ∧ (∀ classId data fault, wellKeyed (addImage classId data fault db).2)
  ∧ (∀ id fault, wellKeyed (deleteImage id fault db).2)
  ∧ (∀ classId fault, wellKeyed (deleteImagesByClass classId fault db).2)
  ∧ (∀ id fault1 fault2, wellKeyed (deleteClass id fault1 fault2 db).2)
  ∧ (∀ id name fault1 fault2, wellKeyed (updateClassName id name fault1 fault2 db).2)
  ∧ (∀ name id, (addClass name None db).1 = Resolved id →
       id ∉ (cls_id <$> classes db))
  ∧ (∀ classId data id, (addImage classId data None db).1 = Resolved id →
       id ∉ (img_id <$> images db)).
Proof.
  intros Hwf. pose proof Hwf as (Hc & Hck & Hi & Hik).
  assert (Hfreshc : classKey db ∉ (cls_id <$> classes db)).
  { intros (c & Hid & Hin)%list_elem_of_fmap.
    rewrite Forall_forall in Hck. specialize (Hck c Hin). lia. }
  assert (Hfreshi : imageKey db ∉ (img_id <$> images db)).
  { intros (c & Hid & Hin)%list_elem_of_fmap.
    rewrite Forall_forall in Hik. specialize (Hik c Hin). lia. }
  split_and!.
  - intros name [e|]; [done|]. simpl. repeat split; simpl; try done.
    + rewrite fmap_app. apply NoDup_app. repeat split; try done.
      * intros x Hx Hx'. apply list_elem_of_singleton in Hx'. by subst.
      * apply NoDup_singleton.
    + apply Forall_app. split.
      * eapply Forall_impl; [exact Hck|]. intros; simpl in *; lia.
      * apply Forall_singleton. simpl. lia.
  - intros classId data [e|]; [done|]. simpl. repeat split; simpl; try done.
    + rewrite fmap_app. apply NoDup_app. repeat split; try done.
      * intros x Hx Hx'. apply list_elem_of_singleton in Hx'. by subst.
      * apply NoDup_singleton.
    + apply Forall_app. split.
      * eapply Forall_impl; [exact Hik|]. intros; simpl in *; lia.
      * apply Forall_singleton. simpl. lia.
  - intros id [e|]; [done|]. by apply wellKeyed_deleteImageKey.
  - intros classId [e|]; [done|]. by apply wellKeyed_foldl_delete.
  - intros id [e1|] [e2|]; try done; simpl.
    + by apply wellKeyed_foldl_delete.
    + by apply wellKeyed_deleteClassKey, wellKeyed_foldl_delete.
  - intros id name [e1|] [e2|]; unfold updateClassName; try done;
      destruct (getClass id db); try done.
    by apply wellKeyed_putClass.
  - intros name id [= <-]. done.
  - intros classId data id [= <-]. done.
Qed.


(** X2.  [addImage] followed by the reads: the new image is the last one of
    its class and of the store, it carries the key [addImage] resolved
    with, the images of every other class are as before, and the summary
    counts one image more. *)
Theorem addImage_then_read (classId : Z) (data : string) (db : Store) :
  let db' := (addImage classId data None db).2 in
  (addImage classId data None db).1 = Resolved (imageKey db)
  ∧ getAllImages db' = getAllImages db ++ [mkImage (imageKey db) classId data]
  ∧ getImagesByClass classId db'
    = getImagesByClass classId db ++ [mkImage (imageKey db) classId data]
  ∧ (∀ other, other ≠ classId →
       getImagesByClass other db' = getImagesByClass other db)
  ∧ totalImages (getDataSummary db') = S (totalImages (getDataSummary db))
  ∧ getClasses db' = getClasses db.
Proof.
  intros db'. split_and!; try done.
  - unfold getImagesByClass. simpl. rewrite filter_app.
    by rewrite filter_cons_True, filter_nil.
  - intros other Hne. unfold getImagesByClass. simpl. rewrite filter_app.
    rewrite filter_cons_False, filter_nil, app_nil_r; [done|]. simpl. congruence.
  - unfold getDataSummary, getAllImages. simpl. rewrite length_app. simpl. lia.
Qed.

Lemma filter_ext_in {A} (P Q : A → Prop) `{∀ x, Decision (P x)}
    `{∀ x, Decision (Q x)} (l : list A) :
  (∀ x, x ∈ l → P x ↔ Q x) → filter P l = filter Q l.
Proof.
  induction l as [|x l IH]; intros Hext; [done|].
  rewrite !filter_cons. rewrite IH.
  - destruct (decide (P x)) as [HP|HP], (decide (Q x)) as [HQ|HQ]; try done.
    + destruct HQ. apply Hext; [by left | done].
    + destruct HP. apply Hext; [by left | done].
  - intros y Hy. apply Hext. by right.
Qed.




(** X4.  [updateClassName] on a missing id fails with the message
    [Class not found] and writes nothing; on a stored id it changes the
    name under that id and nothing else, and the record can be read back. *)
Theorem updateClassName_behaviour (id : Z) (name : string) (db : Store) :
  (id ∉ (cls_id <$> classes db) →
     ∀ faultPut, updateClassName id name None faultPut db
                 = (Rejected (mkError "Class not found"), db))
  ∧ (id ∈ (cls_id <$> classes db) →
       let db' := (updateClassName id name None None db).2 in
       (updateClassName id name None None db).1 = Resolved true
       ∧ classes db'
         = (λ c, if bool_decide (cls_id c = id) then mkClass id name else c)
             <$> classes db
       ∧ cls_id <$> classes db' = cls_id <$> classes db
       ∧ images db' = images db
       ∧ getClass id db' = Some (mkClass id name)).
Proof.
  split.
  - intros Hn faultPut. unfold updateClassName.
    apply getClass_None in Hn. by rewrite Hn.
  - intros Hin db'. unfold db', updateClassName.
    destruct (getClass id db) as [c|] eqn:Hget.
    2:{ by apply getClass_None in Hget. }
    apply getClass_Some in Hget as [Hid Hc]. simpl. rewrite Hid.
    split_and!; try done.
    + apply (putClass_ids (mkClass id name)).
    + unfold getClass, putClass. simpl. clear Hin.
      induction (classes db) as [|x l IH]; [by apply elem_of_nil in Hc|].
      rewrite fmap_cons. destruct (decide (cls_id x = id)) as [Hx|Hx].
      * rewrite bool_decide_eq_true_2 by done.
        by rewrite filter_cons_True.
      * rewrite bool_decide_eq_false_2 by done.
        rewrite filter_cons_False by done. apply IH.
        apply elem_of_cons in Hc as [->|Hc]; [done|done].
Qed.

(** X5.  [deleteImage] always resolves; it removes the image under the key
    and no other, so a key that is not stored leaves the store as it is
    and deleting twice is deleting once. *)
Theorem deleteImage_behaviour (id : Z) (db : Store) :
  let db' := (deleteImage id None db).2 in
  (deleteImage id None db).1 = Resolved true
  ∧ (id ∉ (img_id <$> images db'))
  ∧ (∀ img, img ∈ images db → img_id img ≠ id → img ∈ images db')
  ∧ (id ∉ (img_id <$> images db) → db' = db)
  ∧ (deleteImage id None db').2 = db'
  ∧ classes db' = classes db.
Proof.
  intros db'. split_and!; try done.
  - intros (x & Hid & Hx)%list_elem_of_fmap.
    apply list_elem_of_filter in Hx as [Hne _]. by apply Hne.
  - intros img Hin Hne. unfold db'. simpl. by apply list_elem_of_filter.
  - intros Hn. unfold db', deleteImage, deleteImageKey. simpl.
    destruct db as [cs imgs ck ik]. simpl in *. f_equal.
    induction imgs as [|x l IH]; [done|].
    rewrite fmap_cons in Hn. apply not_elem_of_cons in Hn as [Hx Hl].
    rewrite filter_cons_True by done. f_equal. by apply IH.
  - unfold db', deleteImage, deleteImageKey. simpl. f_equal.
    rewrite list_filter_filter. apply filter_ext_in. intros x _. tauto.
Qed.

Lemma length_filter_or {A} (P Q : A → Prop) `{∀ x, Decision (P x)}
    `{∀ x, Decision (Q x)} (l : list A) :
  (∀ x, P x → Q x → False) →
  length (filter (λ x, P x ∨ Q x) l)
  = length (filter P l) + length (filter Q l).
Proof.
  intros Hdis. induction l as [|x l IH]; [done|].
  rewrite !filter_cons.
  destruct (decide (P x)) as [HP|HP], (decide (Q x)) as [HQ|HQ];
    destruct (decide (P x ∨ Q x)) as [HPQ|HPQ]; simpl; try lia;
    try (by destruct (Hdis x)); try tauto.
Qed.

Lemma counts_sum (cs : list ClassRec) (imgs : list ImageRec) :
  NoDup (cls_id <$> cs) →
  sum_list ((λ c, length (filter (λ img, img_classId img = cls_id c) imgs)) <$> cs)
  = length (filter (λ img, img_classId img ∈ (cls_id <$> cs)) imgs).
Proof.
  induction cs as [|c cs IH]; intros Hnd.
  - simpl. induction imgs as [|x l IHl]; [done|].
    rewrite filter_cons_False; [done|]. apply not_elem_of_nil.
  - rewrite fmap_cons in Hnd. apply NoDup_cons in Hnd as [Hc Hnd].
    rewrite fmap_cons. simpl. rewrite (IH Hnd).
    rewrite <- length_filter_or.
    + f_equal. apply filter_ext_in. intros x _. rewrite elem_of_cons. done.
    + intros x Hx Hx'. apply Hc. by rewrite <- Hx.
Qed.

(** X6.  With unique class ids, the counts of [getDataSummary] add up to the
    number of images that belong to a stored class: [totalImages] exceeds
    their sum by exactly the number of orphaned images. *)
Theorem summary_counts_add_up (db : Store) :
  NoDup (cls_id <$> classes db) →
  let summary := getDataSummary db in
  sum_list ((λ c, default 0 (classCounts summary !! cls_id c)) <$> classes db)
  + length (orphans db)
  = totalImages summary.
Proof.
  intros Hnd summary.
  assert (Hsum : (λ c, default 0 (classCounts summary !! cls_id c)) <$> classes db
                 = (λ c, length (filter (λ img, img_classId img = cls_id c)
                                        (images db))) <$> classes db).
  { apply list_fmap_ext. intros i c Hc. unfold summary.
    rewrite classCounts_lookup. rewrite decide_True; [done|].
    apply list_elem_of_fmap_2. by eapply list_elem_of_lookup_2. }
  rewrite Hsum, (counts_sum _ _ Hnd). clear Hsum.
  unfold orphans, orphaned, summary.
  simpl. unfold getAllImages.
  induction (images db) as [|x l IH]; [done|].
  rewrite !filter_cons.
  destruct (decide (img_classId x ∈ cls_id <$> classes db)) as [Hc|Hc];
    destruct (decide (img_classId x ∉ cls_id <$> classes db)) as [Hc'|Hc'];
    first [ tauto | simpl in *; lia ].
Qed.

(** X7.  [clearAll] empties the stores one after the other.  When all four
    clears succeed nothing is left, though the key generators keep
    counting; when the clear of the images fails after that of the
    classes, the call rejects with every stored image orphaned. *)
Theorem clearAll_is_not_atomic (faults : StoreName → option Error)
    (d : Database) :
  (faults CLASSES = None → faults IMAGES = None → faults MODELS = None →
   faults SETTINGS = None →
     clearAll faults d
     = (Resolved true,
        mkDb (mkStore [] [] (classKey (core d)) (imageKey (core d))) None ∅))
  ∧ (∀ e, faults CLASSES = Some e → clearAll faults d = (Rejected e, d))
  ∧ (∀ e, faults CLASSES = None → faults IMAGES = Some e →
       (clearAll faults d).1 = Rejected e
       ∧ classes (core (clearAll faults d).2) = []
       ∧ images (core (clearAll faults d).2) = images (core d)
       ∧ orphans (core (clearAll faults d).2) = images (core d)
       ∧ modelInfo (clearAll faults d).2 = modelInfo d).
Proof.
  unfold clearAll. simpl. split_and!.
  - by intros -> -> -> ->.
  - by intros e ->.
  - intros e -> ->. simpl. split_and!; try done.
    unfold orphans, orphaned. simpl.
    induction (images (core d)) as [|x l IH]; [done|].
    rewrite filter_cons_True; [by f_equal|]. apply not_elem_of_nil.
Qed.


Section OnSamples.

Import Samples.

Lemma smallStore_wellKeyed : wellKeyed smallStore.
Proof.
  unfold wellKeyed. simpl. split_and!.
  - apply (bool_decide_unpack _). by vm_compute.
  - repeat constructor.
  - apply (bool_decide_unpack _). by vm_compute.
  - repeat constructor.
Defined.

Lemma writes_keep_keys_unique_witness :
  wellKeyed (deleteClass 1 None None smallStore).2
  ∧ wellKeyed (addClass "bird" None smallStore).2
  ∧ 3%Z ∉ (cls_id <$> classes smallStore).
Proof.
  destruct (writes_keep_keys_unique smallStore smallStore_wellKeyed)
    as (Hadd & _ & _ & _ & Hdel & _ & Hfresh & _).
  split_and!.
  - apply Hdel.
  - apply Hadd.
  - apply (Hfresh "bird"). reflexivity.
Defined.

Lemma addImage_then_read_witness :
  getImagesByClass 2 (addImage 1 "e" None smallStore).2
  = getImagesByClass 2 smallStore.
Proof.
  destruct (addImage_then_read 1 "e" smallStore) as (_ & _ & _ & Hother & _).
  apply Hother. lia.
Defined.


Lemma updateClassName_behaviour_witness :
  updateClassName 9 "bird" None None smallStore
  = (Rejected (mkError "Class not found"), smallStore)
  ∧ classes (updateClassName 2 "wolf" None None smallStore).2
    = [cat; mkClass 2 "wolf"].
Proof.
  split.
  - destruct (updateClassName_behaviour 9 "bird" smallStore) as [Hmiss _].
    apply Hmiss. vm_compute. intros H. 
    repeat (apply elem_of_cons in H as [H|H]; [discriminate H|]).
    by apply elem_of_nil in H.
  - destruct (updateClassName_behaviour 2 "wolf" smallStore) as [_ Hhit].
    destruct Hhit as (_ & Hcls & _).
    + vm_compute. right. left.
    + exact Hcls.
Defined.

Lemma deleteImage_behaviour_witness :
  (deleteImage 9 None smallStore).2 = smallStore.
Proof.
  destruct (deleteImage_behaviour 9 smallStore) as (_ & _ & _ & Hmiss & _).
  apply Hmiss. vm_compute. intros H.
  repeat (apply elem_of_cons in H as [H|H]; [discriminate H|]).
  by apply elem_of_nil in H.
Defined.

Lemma summary_counts_add_up_witness :
  sum_list [0; 0] + 4 = totalImages (getDataSummary orphanStore).
Proof.
  apply (summary_counts_add_up orphanStore).
  apply (bool_decide_unpack _). by vm_compute.
Defined.

Lemma clearAll_is_not_atomic_witness :
  orphans (core (clearAll (λ n, match n with
                                | IMAGES => Some quotaExceeded
                                | _ => None
                                end)
                          (mkDb smallStore None ∅)).2)
  = images smallStore.
Proof.
  destruct (clearAll_is_not_atomic
              (λ n, match n with IMAGES => Some quotaExceeded | _ => None end)
              (mkDb smallStore None ∅)) as (_ & _ & Hhalf).
  destruct (Hhalf quotaExceeded) as (_ & _ & _ & Horph & _);
    [reflexivity | reflexivity |]. exact Horph.
Defined.

End OnSamples.

End StoreMoreFacts.

(** ** The start of a run *)

Module StartFacts.

Import Storage StorageMore Model App Trace TraceMore TrainFacts.

Lemma labelsFrom_cons (ci : nat) (e : Z * (string * list ImageRec))
    (cwi : list (Z * (string * list ImageRec))) :
  labelsFrom ci (e :: cwi) = mkLabel e.1 e.2.1 ci :: labelsFrom (S ci) cwi.
Proof.
  unfold labelsFrom. simpl. rewrite Nat.add_0_r. f_equal.
  apply imap_ext. intros i x _. simpl. f_equal. lia.
Qed.

Lemma samples_cons (e : Z * (string * list ImageRec))
    (cwi : list (Z * (string * list ImageRec))) :
  samples (e :: cwi) = length e.2.2 + samples cwi.
Proof. done. Qed.

(** The loop of [prepareTrainingData]: the labels pushed are a prefix of
    the labels of the entries, the whole of them when no load rejects. *)
Lemma loadImages_spec (entries : list (Z * (string * list ImageRec)))
    (ci ld : nat) (fault : option (nat * Error)) (labels : list ClassLabel) :
  ∃ k, (loadImages entries ci ld fault labels).1
       = labels ++ take k (labelsFrom ci entries)
    ∧ match (loadImages entries ci ld fault labels).2 with
      | Resolved n =>
          n = ld + samples entries ∧ length entries ≤ k
          ∧ ∀ i e, fault = Some (i, e) → ¬ (ld ≤ i ∧ i < ld + samples entries)
      | Rejected e =>
          ∃ i, fault = Some (i, e) ∧ ld ≤ i ∧ i < ld + samples entries
      end.
Proof.
  revert ci ld labels.
  induction entries as [|[cid [name imgs]] rest IH]; intros ci ld labels.
  - exists 0. simpl. rewrite app_nil_r. split; [done|].
    split_and!; [unfold samples; simpl; lia | lia |]. intros i e _.
    unfold samples. simpl. lia.
  - cbn [loadImages]. rewrite labelsFrom_cons, samples_cons. cbn [fst snd].
    destruct (IH (S ci) (ld + length imgs) (labels ++ [mkLabel cid name ci]))
      as (k & Hl & Hr). clear IH.
    assert (Hrec :
      ∃ k0, (loadImages rest (S ci) (ld + length imgs) fault
               (labels ++ [mkLabel cid name ci])).1
            = labels ++ take k0 (mkLabel cid name ci :: labelsFrom (S ci) rest)
        ∧ match (loadImages rest (S ci) (ld + length imgs) fault
                   (labels ++ [mkLabel cid name ci])).2 with
          | Resolved n =>
              n = ld + (length imgs + samples rest) ∧ S (length rest) ≤ k0
              ∧ ∀ i e, fault = Some (i, e) →
                  ¬ (ld + length imgs ≤ i ∧ i < ld + (length imgs + samples rest))
          | Rejected e =>
              ∃ i, fault = Some (i, e) ∧ ld ≤ i
                   ∧ i < ld + (length imgs + samples rest)
          end).
    { exists (S k). rewrite Hl, <- app_assoc. split; [done|].
      destruct (loadImages rest _ _ _ _).2 as [n|e].
      - destruct Hr as (-> & Hk & Hmiss). split_and!; [lia | lia |].
        intros i e Hf. specialize (Hmiss i e Hf). lia.
      - destruct Hr as (i & Hf & Hlo & Hhi). exists i. split_and!; [done|lia|lia]. }
    destruct fault as [[i e]|].
    + destruct (bool_decide_reflect (ld ≤ i)) as [Hlo|Hlo];
        [destruct (bool_decide_reflect (i < ld + length imgs)) as [Hhi|Hhi]|];
        cbn [andb].
      * exists 1. split; [done|]. exists i. simpl. split_and!; [done|lia|lia].
      * destruct Hrec as (k0 & Hl0 & Hr0). exists k0. split; [done|].
        destruct (loadImages rest _ _ _ _).2 as [n|e0]; [|done].
        destruct Hr0 as (-> & Hk & Hmiss). split_and!; [done|done|].
        intros i' e' [= <- <-]. specialize (Hmiss i e eq_refl). lia.
      * destruct Hrec as (k0 & Hl0 & Hr0). exists k0. split; [done|].
        destruct (loadImages rest _ _ _ _).2 as [n|e0]; [|done].
        destruct Hr0 as (-> & Hk & Hmiss). split_and!; [done|done|].
        intros i' e' [= <- <-]. lia.
    + destruct Hrec as (k0 & Hl0 & Hr0). exists k0. split; [done|].
      destruct (loadImages rest _ _ _ _).2 as [n|e0]; [|done].
      destruct Hr0 as (-> & Hk & Hmiss). split_and!; [done|done|]. done.
Qed.


(** *** The object [classesWithImages] *)

Lemma setEntry_keys (key : Z) (value : string * list ImageRec)
    (o : list (Z * (string * list ImageRec))) (k : Z) :
  k ∈ (setEntry key value o).*1 ↔ k = key ∨ k ∈ o.*1.
Proof.
  induction o as [|[k0 v0] o IH]; simpl.
  - rewrite list_elem_of_singleton. split; [by left | intros [?|?%elem_of_nil]; done].
  - repeat case_bool_decide; subst; simpl; rewrite ?elem_of_cons, ?IH;
      simpl; tauto.
Qed.

Lemma setEntry_sorted (key : Z) (value : string * list ImageRec)
    (o : list (Z * (string * list ImageRec))) :
  StronglySorted Z.lt o.*1 → StronglySorted Z.lt (setEntry key value o).*1.
Proof.
  induction o as [|[k0 v0] o IH]; simpl; intros Hs.
  - repeat constructor.
  - apply StronglySorted_inv in Hs as [Hs Hall].
    repeat case_bool_decide; subst; simpl.
    + by constructor.
    + constructor; [by constructor|]. constructor; [done|].
      eapply Forall_impl; [exact Hall|]. intros; simpl in *; lia.
    + constructor; [by apply IH|].
      apply Forall_forall. intros k Hk. apply setEntry_keys in Hk as [->|Hk].
      * lia.
      * rewrite Forall_forall in Hall. by apply Hall.
Qed.

Lemma setEntry_fresh (key : Z) (value : string * list ImageRec)
    (o : list (Z * (string * list ImageRec))) :
  key ∉ o.*1 →
  samples (setEntry key value o) = length value.2 + samples o
  ∧ length (setEntry key value o) = S (length o).
Proof.
  induction o as [|[k0 v0] o IH]; simpl; intros Hk; [done|].
  apply not_elem_of_cons in Hk as [Hne Hk]. simpl in Hne.
  rewrite bool_decide_eq_false_2 by done.
  case_bool_decide; [done|]. destruct (IH Hk) as [IH1 IH2].
  rewrite !samples_cons, IH1. simpl. split; [lia|]. by rewrite IH2.
Qed.

Lemma setEntry_nonempty (key : Z) (value : string * list ImageRec)
    (o : list (Z * (string * list ImageRec))) :
  value.2 ≠ [] → Forall (λ e, e.2.2 ≠ []) o →
  Forall (λ e, e.2.2 ≠ []) (setEntry key value o).
Proof.
  intros Hv. induction o as [|[k0 v0] o IH]; simpl; intros Ho.
  - by repeat constructor.
  - apply Forall_cons in Ho as [H0 Ho].
    repeat case_bool_decide; repeat constructor; try done. by apply IH.
Qed.

(** The loop that builds the object, started from any object [o]. *)
Lemma classesWithImages_loop (cs : list ClassRec) (db : Store)
    (o : list (Z * (string * list ImageRec))) :
  let o' := foldl (λ o cls, addEntry cls (getImagesByClass (cls_id cls) db) o)
                  o cs in
  (StronglySorted Z.lt o.*1 → StronglySorted Z.lt o'.*1)
  ∧ (Forall (λ e, e.2.2 ≠ []) o → Forall (λ e, e.2.2 ≠ []) o')
  ∧ (NoDup (cls_id <$> cs) → (∀ c, c ∈ cs → cls_id c ∉ o.*1) →
       samples o'
       = samples o
         + sum_list ((λ c, length (getImagesByClass (cls_id c) db)) <$> cs)
       ∧ length o'
         = length o
           + length (filter (λ c, getImagesByClass (cls_id c) db ≠ []) cs)).
Proof.
  revert o. induction cs as [|c cs IH]; intros o o'.
  - unfold o'. simpl. split_and!; try done; intros _ _; split; lia.
  - unfold o'. cbn [foldl].
    set (o1 := addEntry c (getImagesByClass (cls_id c) db) o).
    destruct (IH o1) as (IHs & IHn & IHc). split_and!.
    + intros Hs. apply IHs. unfold o1, addEntry.
      case_bool_decide; [by apply setEntry_sorted|done].
    + intros Hn. apply IHn. unfold o1, addEntry.
      case_bool_decide as Hlen; [|done]. apply setEntry_nonempty; [|done].
      simpl. intros Hnil. rewrite Hnil in Hlen. simpl in Hlen. lia.
    + rewrite fmap_cons. intros [Hc Hnd]%NoDup_cons Hfresh.
      assert (Hc0 : cls_id c ∉ o.*1) by (apply Hfresh; by left).
      destruct IHc as [IH1 IH2]; [done| |].
      { intros c' Hc' Hin. unfold o1, addEntry in Hin.
        case_bool_decide.
        - apply setEntry_keys in Hin as [Heq|Hin].
          + apply Hc. rewrite <- Heq. by apply list_elem_of_fmap_2.
          + revert Hin. apply Hfresh. by right.
        - revert Hin. apply Hfresh. by right. }
      rewrite IH1, IH2. rewrite fmap_cons, filter_cons. cbn [sum_list sum_list_with].
      unfold o1, addEntry.
      destruct (getImagesByClass (cls_id c) db) as [|img imgs] eqn:Himgs.
      * rewrite bool_decide_eq_false_2 by (simpl; lia).
        rewrite decide_False by (intros H; by apply H). simpl. split; lia.
      * rewrite bool_decide_eq_true_2 by (simpl; lia).
        rewrite decide_True by done.
        destruct (setEntry_fresh (cls_id c) (cls_name c, img :: imgs) o Hc0)
          as [-> ->]. simpl. split; lia.
Qed.

Lemma classesWithImages_nonempty (cs : list ClassRec) (db : Store) :
  Forall (λ e, e.2.2 ≠ []) (classesWithImages cs db).
Proof. by apply (classesWithImages_loop cs db []). Qed.

Lemma nonempty_samples (cwi : list (Z * (string * list ImageRec))) :
  Forall (λ e, e.2.2 ≠ []) cwi → length cwi ≤ samples cwi.
Proof.
  induction 1 as [|[k [n imgs]] cwi Hne _ IH]; [done|].
  rewrite samples_cons. simpl in *. destruct imgs; [done|]. simpl. lia.
Qed.

(** *** [prepareTrainingData] *)

Lemma labelsFrom_length (ci : nat) (cwi : list (Z * (string * list ImageRec))) :
  length (labelsFrom ci cwi) = length cwi.
Proof. unfold labelsFrom. by rewrite length_imap. Qed.

(** The four ways [prepareTrainingData] can go on an object whose
    entries all have images. *)
Lemma prepareTrainingData_cases (cwi : list (Z * (string * list ImageRec)))
    (fault : option (nat * Error)) (s : Session) :
  Forall (λ e, e.2.2 ≠ []) cwi →
  (∃ i e k, fault = Some (i, e) ∧ i < samples cwi
     ∧ prepareTrainingData cwi fault s
       = (setLabels (take k (labelsFrom 0 cwi)) s, Rejected e))
  ∨ ((∀ i e, fault = Some (i, e) → samples cwi ≤ i)
     ∧ ((cwi = []
         ∧ prepareTrainingData cwi fault s = (setLabels [] s, Rejected stackError))
        ∨ (length cwi = 1
           ∧ prepareTrainingData cwi fault s
             = (emit [EAllocate Xs] (setLabels (labelsFrom 0 cwi) s),
                Rejected oneHotError))
        ∨ (2 ≤ length cwi
           ∧ prepareTrainingData cwi fault s
             = (emit [EAllocate Xs; EAllocate Ys]
                     (setLabels (labelsFrom 0 cwi) s),
                Resolved (mkData (samples cwi) (length cwi)))))).
Proof.
  intros Hne. pose proof (nonempty_samples cwi Hne) as Hlen.
  unfold prepareTrainingData.
  destruct (loadImages_spec cwi 0 0 fault []) as (k & Hl & Hr).
  destruct (loadImages cwi 0 0 fault []) as [labels [n|e]]; simpl in Hl, Hr.
  - destruct Hr as (-> & Hk & Hmiss). right.
    rewrite take_ge in Hl by (rewrite labelsFrom_length; lia). subst labels.
    split. { intros i e Hf. specialize (Hmiss i e Hf). lia. }
    rewrite labelsFrom_length. simpl.
    destruct cwi as [|e1 [|e2 cwi]].
    + left. done.
    + right. left. split; [done|].
      rewrite bool_decide_eq_false_2 by (simpl in Hlen; lia).
      by rewrite bool_decide_eq_true_2 by (simpl; lia).
    + right. right. split; [simpl; lia|].
      rewrite bool_decide_eq_false_2 by (simpl in Hlen; lia).
      by rewrite bool_decide_eq_false_2 by (simpl; lia).
  - destruct Hr as (i & Hf & _ & Hhi). left. exists i, e, k. by subst.
Qed.

(** *** The call as a whole is its steps, one after the other *)

Lemma startSteps_settled (params : Params) (f : StartFaults) (db : Store)
    (n : nat) (w : StartPc) (s : Session) :
  match w with StartReturned | OnTrain _ _ => True | _ => False end →
  startSteps params f db n w s = (s, w).
Proof.
  intros Hw. induction n as [|n IH]; [done|].
  destruct w; try done; simpl; apply IH.
Qed.

Lemma startSteps_S (params : Params) (f : StartFaults) (db : Store)
    (n : nat) (w : StartPc) (s : Session) :
  startSteps params f db (S n) w s
  = startSteps params f db n (startResume params f db w s).2
               (startResume params f db w s).1.
Proof. simpl. by destruct (startResume params f db w s). Qed.

Lemma startLoop_steps (params : Params) (f : StartFaults) (db : Store)
    (rest : list ClassRec) (cwi : list (Z * (string * list ImageRec)))
    (s : Session) :
  startSteps params f db (S (length rest))
             (startLoop params cwi rest s).2 (startLoop params cwi rest s).1
  = match imagesFault f, rest with
    | Some e, _ :: _ => (catchStart e s, StartReturned)
    | _, _ =>
        let cwi' :=
          foldl (λ o cls, addEntry cls (getImagesByClass (cls_id cls) db) o)
                cwi rest in
        let '(s2, r) :=
          prepareTrainingData cwi' (prepareFault f)
            (emit [EToast "Preparing training data..." TInfo] s) in
        afterPrepare params r s2
    end.
Proof.
  revert cwi. induction rest as [|cls rest IH]; intros cwi.
  - cbn [startLoop length startSteps startResume fst snd foldl].
    destruct (prepareTrainingData _ _ _) as [s2 r].
    destruct (afterPrepare params r s2) as [s3 w3].
    by destruct (imagesFault f).
  - cbn [startLoop length fst snd].
    rewrite startSteps_S. cbn [startResume]. unfold afterImages, settle.
    destruct (imagesFault f) as [e|] eqn:Hf.
    + by rewrite startSteps_settled.
    + exact (IH (addEntry cls (getImagesByClass (cls_id cls) db) cwi)).
Qed.

(** [handleStartTraining] is the steps of a call run back to back, with
    the store [db] answering the reads. *)
Lemma handleStartTraining_steps (params : Params) (f : StartFaults)
    (db : Store) (s : Session) :
  startSteps params f db (2 + length (app_classes (app s)))
             (startEntry s).2 (startEntry s).1
  = ((handleStartTraining params f db s).1,
     placeOf params (handleStartTraining params f db s).2).
Proof.
  unfold startEntry, handleStartTraining.
  destruct (app_isTraining (app s)); cbn [fst snd];
    [by rewrite startSteps_settled|].
  cbn [Nat.add]. rewrite startSteps_S. cbn [startResume].
  unfold afterSummary, settle.
  destruct (summaryFault f) as [e|]; cbn [fst snd];
    [by rewrite startSteps_settled|].
  case_bool_decide; cbn [fst snd]; [by rewrite startSteps_settled|].
  case_bool_decide; cbn [fst snd]; [by rewrite startSteps_settled|].
  rewrite startLoop_steps. unfold classesWithImages.
  destruct (imagesFault f), (app_classes (app s)); try done.
  all: cbv zeta; destruct (prepareTrainingData _ _ _) as [s2 [d|e']]; done.
Qed.

End StartFacts.

(** ** More on sessions *)

Module SessionFacts.

Import Storage Model App Trace TraceMore TrainFacts StartFacts.

#[local] Arguments seq : simpl never.

Section Run.

Variable trainingData : TrainingData.
Variable params : Params.

Abbreviation appStep := (App.appStep trainingData params).
Abbreviation appRun := (App.appRun trainingData params).

Lemma bookkeeping_step (s : Session) (i : AppInput) :
  bookkeeping (epochs params) s →
  bookkeeping (epochs params) (appStep s i)
  ∧ currentEpoch (mm s) ≤ currentEpoch (mm (appStep s i)).
Proof.
  session s. unfold bookkeeping. simpl.
  destruct p as [| |k|k|[b|e0]]; [done| | | | |];
    intros Hb; destruct_and?; subst;
    input i; crush_step; split_and?; try done; try lia.
Qed.

Lemma bookkeeping_run (ins : list AppInput) (s : Session) :
  bookkeeping (epochs params) s →
  bookkeeping (epochs params) (appRun ins s)
  ∧ currentEpoch (mm s) ≤ currentEpoch (mm (appRun ins s)).
Proof.
  revert s. induction ins as [|i ins IH]; intros s Hb; [done|].
  rewrite appRun_cons.
  destruct (bookkeeping_step s i Hb) as [Hb' Hle].
  destruct (IH _ Hb') as [Hb'' Hle']. split; [done|lia].
Qed.


(** While paused and not stopped, a firing timer changes nothing. *)
Lemma parked_timer_step (s : Session) (k : nat) :
  pc s = PcSleep k → isPaused (mm s) = true → shouldStop (mm s) = false →
  appStep s (Runtime ITimer) = s.
Proof.
  session s. simpl. intros -> -> ->. done.
Qed.



(** As long as only the page drives the session, its pause flag and
    that of the model manager agree until a stop is accepted. *)
Lemma pause_flags_step (s : Session) (i : AppInput) :
  pageDriven i →
  (shouldStop (mm s) = false → isPaused (mm s) = app_isPaused (app s)) →
  shouldStop (mm (appStep s i)) = false →
  isPaused (mm (appStep s i)) = app_isPaused (app (appStep s i)).
Proof.
  session s. unfold pageDriven. simpl.
  destruct p as [| |k|k|[b|e0]]; input i; try done; crush_step;
    intros _ H Hst; try done; try (by apply H); try (by rewrite <- H).
Qed.

Lemma pause_flags_run (ins : list AppInput) (s : Session) :
  Forall pageDriven ins →
  (shouldStop (mm s) = false → isPaused (mm s) = app_isPaused (app s)) →
  shouldStop (mm (appRun ins s)) = false →
  isPaused (mm (appRun ins s)) = app_isPaused (app (appRun ins s)).
Proof.
  revert s. induction ins as [|i ins IH]; intros s Hpd Hagree; [done|].
  apply Forall_cons in Hpd as [Hi Hpd]. rewrite appRun_cons.
  apply IH; [done|]. by apply pause_flags_step.
Qed.

End Run.

Lemma started_bookkeeping (params : Params) (f : StartFaults) (db : Store)
    (s s0 : Session) (data : TrainingData) (ins : list AppInput) :
  handleStartTraining params f db s = (s0, Awaiting data) →
  bookkeeping (epochs params) (appRun data params ins s0)
  ∧ currentEpoch (mm s0) ≤ currentEpoch (mm (appRun data params ins s0)).
Proof.
  intros (Hidle & Hpc & Hmm & Happ & Hlog)%handleStartTraining_started.
  apply bookkeeping_run. unfold bookkeeping. by rewrite Hpc, Hmm, Happ.
Qed.

(** X8.  In a run started by [handleStartTraining], between any two
    tasks the training flag of the page and that of the model manager
    agree, and they are set exactly while [train] is suspended. *)
Theorem training_flags_agree
    (params : Params) (f : StartFaults) (db : Store)
    (s s0 : Session) (data : TrainingData) (ins : list AppInput) :
  handleStartTraining params f db s = (s0, Awaiting data) →
  let s' := appRun data params ins s0 in
  isTraining (mm s') = app_isTraining (app s')
  ∧ (app_isTraining (app s') = true ↔ active s')
  ∧ (app_isTraining (app s') = false ↔ terminated s').
Proof.
  intros Hstart s'.
  destruct (started_bookkeeping params f db s s0 data ins Hstart) as [Hb _].
  fold s' in Hb. unfold bookkeeping in Hb. unfold active, terminated.
  destruct (pc s') as [| |k|k|r]; try done; destruct_and?;
    split_and!; try congruence; split; try done; congruence.
Qed.


(** X10.  A session parked in the pause loop stays exactly as it is
    however often the timer fires; after a resume the next firing issues
    the [fit] of the very epoch it was parked before. *)
Theorem pause_parks_the_loop
    (params : Params) (data : TrainingData) (s : Session) (k : nat) :
  pc s = PcSleep k → isPaused (mm s) = true → shouldStop (mm s) = false →
  (∀ n, appRun data params (replicate n (Runtime ITimer)) s = s)
  ∧ (∀ i,
       i = Runtime IResume
       ∨ (i = ClickPause ∧ app_isTraining (app s) = true
          ∧ app_isPaused (app s) = true) →
       let s' := appRun data params [i; Runtime ITimer] s in
       pc s' = PcFit k ∧ since s s' = [EFit k]
       ∧ isPaused (mm s') = false).
Proof.
  intros Hpc Hp Hst. split.
  - induction n as [|n IH]; [done|]. simpl replicate. rewrite appRun_cons.
    by rewrite (parked_timer_step data params s k).
  - session s. simpl in *. subst. unfold since.
    intros i [->|(-> & -> & ->)]; simpl; by rewrite drop_app_length.
Qed.


(** X12.  In a run started by [handleStartTraining] and driven only
    through the page, the pause flag of the page and that of the model
    manager agree for as long as no stop has been accepted. *)
Theorem pause_flags_agree_until_stopped
    (params : Params) (f : StartFaults) (db : Store)
    (s s0 : Session) (data : TrainingData) (ins : list AppInput) :
  handleStartTraining params f db s = (s0, Awaiting data) →
  Forall pageDriven ins →
  let s' := appRun data params ins s0 in
  shouldStop (mm s') = false →
  isPaused (mm s') = app_isPaused (app s').
Proof.
  intros (Hidle & Hpc & Hmm & Happ & Hlog)%handleStartTraining_started Hpd s'.
  apply pause_flags_run; [done|]. intros _. by rewrite Hmm, Happ.
Qed.

(** A call that does not get as far as [prepareTrainingData] returns
    with the session as it was, but for what it logs. *)
Lemma handleStartTraining_early (params : Params) (f : StartFaults)
    (db : Store) (s : Session) :
  ¬ reachesPrepare f db s →
  ∃ evs, (handleStartTraining params f db s).2 = Returned
    ∧ pc (handleStartTraining params f db s).1 = pc s
    ∧ mm (handleStartTraining params f db s).1 = mm s
    ∧ app_isTraining (app (handleStartTraining params f db s).1)
      = app_isTraining (app s)
    ∧ log (handleStartTraining params f db s).1 = log s ++ evs
    ∧ ∀ t, EAllocate t ∉ evs.
Proof.
  intros Hno. unfold handleStartTraining.
  destruct (app_isTraining (app s)) eqn:Hit.
  { exists []. rewrite app_nil_r. split_and!; try done.
    intros t. apply not_elem_of_nil. }
  destruct (summaryFault f) as [e|] eqn:Hsum.
  { eexists. simpl. rewrite ?Hit. split_and!; try done. intros t Hin.
    repeat (apply elem_of_cons in Hin as [Hin|Hin]; [discriminate Hin|]).
    by apply elem_of_nil in Hin. }
  simpl. unfold getClasses, getAllImages.
  case_bool_decide as H2.
  { eexists. simpl. split_and!; try done. intros t Hin.
    repeat (apply elem_of_cons in Hin as [Hin|Hin]; [discriminate Hin|]).
    by apply elem_of_nil in Hin. }
  case_bool_decide as H4.
  { eexists. simpl. split_and!; try done. intros t Hin.
    repeat (apply elem_of_cons in Hin as [Hin|Hin]; [discriminate Hin|]).
    by apply elem_of_nil in Hin. }
  destruct (imagesFault f) as [e|] eqn:Him.
  - destruct (app_classes (app s)) as [|c cs] eqn:Hcs.
    + destruct Hno. unfold reachesPrepare. split_and!; try done; try lia. by right.
    + eexists. simpl. rewrite ?Hit. split_and!; try done. intros t Hin.
    repeat (apply elem_of_cons in Hin as [Hin|Hin]; [discriminate Hin|]).
    by apply elem_of_nil in Hin.
  - destruct Hno. unfold reachesPrepare. split_and!; try done; try lia. by left.
Qed.

(** A call that gets there goes on as [prepareTrainingData] decides. *)
Lemma handleStartTraining_late (params : Params) (f : StartFaults)
    (db : Store) (s : Session) :
  reachesPrepare f db s →
  handleStartTraining params f db s
  = match prepareTrainingData (classesWithImages (app_classes (app s)) db)
            (prepareFault f)
            (emit [EToast "Preparing training data..." TInfo] s) with
    | (s2, Rejected e) => (catchStart e s2, Returned)
    | (s2, Resolved trainingData) =>
        (trainBegin
           (emit [ETrainingUI "training"; EStartTimer]
                 (setApp (setTraining true false (app s2)) s2)),
         Awaiting trainingData)
    end.
Proof.
  intros (Hit & Hsum & H2 & H4 & Him). unfold handleStartTraining.
  rewrite Hit, Hsum. simpl. unfold getClasses, getAllImages.
  rewrite !bool_decide_eq_false_2 by lia.
  destruct Him as [->| ->]; [done|]. by destruct (imagesFault f).
Qed.

(** A call that gets as far as [prepareTrainingData] either enters
    [train] or returns from its [catch] block. *)
Lemma start_late_cases
    (params : Params) (f : StartFaults) (db : Store) (s : Session) :
  let s' := (handleStartTraining params f db s).1 in
  let c := (handleStartTraining params f db s).2 in
  let cwi := classesWithImages (app_classes (app s)) db in
  reachesPrepare f db s →
    (loadsAll f cwi ∧ 2 ≤ length cwi
     ∧ c = Awaiting (mkData (samples cwi) (length cwi)))
    ∨ (¬ (loadsAll f cwi ∧ 2 ≤ length cwi)
       ∧ c = Returned ∧ pc s' = pc s
       ∧ isTraining (mm s') = isTraining (mm s)
       ∧ isPaused (mm s') = isPaused (mm s)
       ∧ shouldStop (mm s') = shouldStop (mm s)
       ∧ currentEpoch (mm s') = currentEpoch (mm s)
       ∧ app_isTraining (app s') = false
       ∧ (∃ k, classLabels (mm s') = take k (labelsFrom 0 cwi))
       ∧ (loadsAll f cwi → classLabels (mm s') = labelsFrom 0 cwi)
       ∧ (EAllocate Ys ∉ since s s')
       ∧ (EDispose Xs ∉ since s s')
       ∧ (EAllocate Xs ∈ since s s' ↔ loadsAll f cwi ∧ length cwi = 1)).
Proof.
  intros s' c cwi.
  intros Hreach. unfold s', c, since.
  rewrite (handleStartTraining_late params f db s Hreach). fold cwi.
  assert (Hin : ∀ (e : Event) (evs : list Event),
            e ∈ evs ↔ bool_decide (e ∈ evs) = true).
  { intros e evs. by rewrite bool_decide_eq_true. }
  destruct (prepareTrainingData_cases cwi (prepareFault f)
              (emit [EToast "Preparing training data..." TInfo] s)
              (classesWithImages_nonempty _ _))
    as [(i & e & k & Hf & Hi & ->)|(Hall & [[Hnil ->]|[[Hone ->]|[Htwo ->]]])].
  - right. simpl. rewrite <- ?app_assoc, drop_app_length.
    assert (Hnot : ¬ loadsAll f cwi).
    { intros Hl. specialize (Hl i e Hf). lia. }
    split_and!; try done; try tauto; try by eexists.
    + rewrite Hin. by vm_compute.
    + rewrite Hin. by vm_compute.
    + split; [|tauto]. rewrite Hin. by vm_compute.
  - right. simpl. rewrite <- ?app_assoc, drop_app_length. rewrite Hnil. simpl.
    split_and!; try done; try lia.
    + by exists 0.
    + rewrite Hin. by vm_compute.
    + rewrite Hin. by vm_compute.
    + split; [|lia]. rewrite Hin. by vm_compute.
  - right. simpl. rewrite <- !app_assoc, drop_app_length. simpl.
    split_and!; try done; try lia.
    + exists (length cwi). rewrite take_ge; [done|].
      by rewrite labelsFrom_length.
    + rewrite Hin. by vm_compute.
    + rewrite Hin. by vm_compute.
    + split; [done|]. intros _. apply elem_of_cons. right.
      apply elem_of_cons. by left.
  - left. by split_and!.
Qed.

(** X13.  [handleStartTraining] enters [train] exactly when the call
    gets as far as [prepareTrainingData] (no session flagged as
    training, the summary read, at least two classes and four images
    stored, the images of the classes read), every image loads, and at
    least two classes of the page have images.  A call that does not get
    that far returns with the model manager untouched and nothing
    allocated.  A call that gets there and fails returns with the four
    control fields of the model manager as they were and the training
    flag unset, but with the class labels overwritten; and when exactly
    one class has images, [xs] has been allocated and is not disposed. *)
Theorem start_happens_exactly_when
    (params : Params) (f : StartFaults) (db : Store) (s : Session) :
  let s' := (handleStartTraining params f db s).1 in
  let c := (handleStartTraining params f db s).2 in
  let cwi := classesWithImages (app_classes (app s)) db in
  ((∃ data, c = Awaiting data) ↔
     reachesPrepare f db s ∧ loadsAll f cwi ∧ 2 ≤ length cwi)
  ∧ (¬ reachesPrepare f db s →
       c = Returned ∧ pc s' = pc s ∧ mm s' = mm s
       ∧ app_isTraining (app s') = app_isTraining (app s)
       ∧ ∀ t, EAllocate t ∉ since s s')
  ∧ (reachesPrepare f db s → ¬ (loadsAll f cwi ∧ 2 ≤ length cwi) →
       c = Returned ∧ pc s' = pc s
       ∧ isTraining (mm s') = isTraining (mm s)
       ∧ isPaused (mm s') = isPaused (mm s)
       ∧ shouldStop (mm s') = shouldStop (mm s)
       ∧ currentEpoch (mm s') = currentEpoch (mm s)
       ∧ app_isTraining (app s') = false
       ∧ (∃ k, classLabels (mm s') = take k (labelsFrom 0 cwi))
       ∧ (loadsAll f cwi → classLabels (mm s') = labelsFrom 0 cwi)
       ∧ (EAllocate Ys ∉ since s s')
       ∧ (EDispose Xs ∉ since s s')
       ∧ (EAllocate Xs ∈ since s s' ↔ loadsAll f cwi ∧ length cwi = 1)).
Proof.
  intros s' c cwi.
  pose proof (start_late_cases params f db s) as Hlate.
  cbv zeta in Hlate. fold s' c cwi in Hlate.
  split_and!.
  - split.
    + intros [data Hc].
      destruct (decide (app_isTraining (app s) = false
                        ∧ summaryFault f = None
                        ∧ 2 ≤ length (classes db) ∧ 4 ≤ length (images db)
                        ∧ (imagesFault f = None ∨ app_classes (app s) = [])))
        as [Hreach|Hno].
      * destruct (Hlate Hreach) as [(? & ? & _)|(_ & Hret & _)]; [done|].
        discriminate (eq_trans (eq_sym Hret) Hc).
      * destruct (handleStartTraining_early params f db s Hno) as (? & Hret & _).
        discriminate (eq_trans (eq_sym Hret) Hc).
    + intros (Hreach & Hl & H2).
      destruct (Hlate Hreach) as [(_ & _ & ?)|(Hnot & _)]; [by eexists|].
      destruct Hnot. by split.
  - intros Hno.
    destruct (handleStartTraining_early params f db s Hno)
      as (evs & Hret & Hpc & Hmm & Happ & Hlog & Hev).
    unfold s', c, since. rewrite Hlog, drop_app_length. by split_and!.
  - intros Hreach Hnot.
    destruct (Hlate Hreach) as [(? & ? & _)|(_ & Hrest)]; [by destruct Hnot|].
    exact Hrest.
Qed.

(** X14.  For a call of [handleStartTraining] that enters [train] on a
    page with distinct class ids: the object [classesWithImages] has
    one entry per class of the page with stored images, in ascending
    order of the class ids; the training data has one sample per stored
    image of a class of the page; orphaned images, which the check on
    [totalImages] counts, are no samples. *)
Theorem training_data_leaves_orphans_out
    (params : Params) (f : StartFaults) (db : Store)
    (s s0 : Session) (data : TrainingData) :
  handleStartTraining params f db s = (s0, Awaiting data) →
  NoDup (cls_id <$> app_classes (app s)) →
  let cwi := classesWithImages (app_classes (app s)) db in
  StronglySorted Z.lt cwi.*1
  ∧ length cwi
    = length (filter (λ c, getImagesByClass (cls_id c) db ≠ [])
                     (app_classes (app s)))
  ∧ 2 ≤ length cwi
  ∧ numSamples data = samples cwi
  ∧ numSamples data
    = length (filter (λ img, img_classId img ∈ (cls_id <$> app_classes (app s)))
                     (images db))
  ∧ (app_classes (app s) = classes db →
       numSamples data + length (StorageMore.orphans db)
       = totalImages (getDataSummary db)).
Proof.
  intros Hstart Hnd cwi.
  pose proof (classesWithImages_loop (app_classes (app s)) db []) as Hloop.
  cbv zeta in Hloop.
  change (foldl _ [] (app_classes (app s))) with cwi in Hloop.
  destruct Hloop as (Hsorted & _ & Hcount).
  destruct Hcount as [Hsamples Hlength]; [done | by intros c _ ?%elem_of_nil |].
  assert (Hdata : data = mkData (samples cwi) (length cwi) ∧ 2 ≤ length cwi).
  { destruct (decide (app_isTraining (app s) = false
                      ∧ summaryFault f = None
                      ∧ 2 ≤ length (classes db) ∧ 4 ≤ length (images db)
                      ∧ (imagesFault f = None ∨ app_classes (app s) = [])))
      as [Hreach|Hno].
    - destruct (start_late_cases params f db s Hreach)
        as [(_ & H2 & Hc)|(_ & Hret & _)];
        rewrite Hstart in *; simpl in *; [|discriminate Hret].
      by injection Hc as ->.
    - destruct (handleStartTraining_early params f db s Hno) as (? & Hret & _).
      rewrite Hstart in Hret. discriminate Hret. }
  destruct Hdata as [-> H2]. simpl.
  assert (Hnum : samples cwi
            = length (filter (λ img, img_classId img
                                     ∈ (cls_id <$> app_classes (app s)))
                             (images db))).
  { rewrite Hsamples. unfold samples at 1. simpl.
    unfold getImagesByClass. by apply StoreMoreFacts.counts_sum. }
  split_and!; try done.
  - apply Hsorted. constructor.
  - intros Hsync. rewrite Hnum, Hsync. clear.
    unfold StorageMore.orphans, orphaned, getDataSummary, getAllImages. simpl.
    induction (images db) as [|x l IH]; [done|].
    rewrite !filter_cons.
    destruct (decide (img_classId x ∈ cls_id <$> classes db)) as [Hc|Hc];
      destruct (decide (img_classId x ∉ cls_id <$> classes db)) as [Hc'|Hc'];
      first [ tauto | simpl in *; lia ].
Qed.


Section OnSamples.

Import Samples SamplesMore.

Lemma training_flags_agree_witness :
  isTraining (mm fitting0) = app_isTraining (app fitting0)
  ∧ (app_isTraining (app fitting0) = true ↔ active fitting0).
Proof.
  destruct (training_flags_agree params3 noFaults smallStore page session0
              data4 [Runtime ICreated]) as (Hagree & Hact & _).
  - reflexivity.
  - split; [exact Hagree | exact Hact].
Defined.


Lemma pause_parks_the_loop_witness :
  appRun data4 params3 (replicate 5 (Runtime ITimer)) waiting1 = waiting1
  ∧ pc (appRun data4 params3 [ClickPause; Runtime ITimer] waiting1) = PcFit 1.
Proof.
  destruct (pause_parks_the_loop params3 data4 waiting1 1)
    as [Hstay Hgo]; [reflexivity | reflexivity | reflexivity |].
  split; [apply Hstay|].
  destruct (Hgo ClickPause) as (Hpc & _).
  - right. split_and!; reflexivity.
  - exact Hpc.
Defined.


Lemma pause_flags_agree_until_stopped_witness :
  isPaused (mm waiting1) = app_isPaused (app waiting1).
Proof.
  apply (pause_flags_agree_until_stopped params3 noFaults smallStore page
           session0 data4 [Runtime ICreated; ClickPause; fitDone]).
  - reflexivity.
  - repeat constructor.
  - reflexivity.
Defined.

Lemma page_reachesPrepare (db : Store) :
  2 ≤ length (classes db) → 4 ≤ length (images db) →
  reachesPrepare noFaults db page.
Proof. intros H2 H4. unfold reachesPrepare. split_and!; try done. by left. Defined.

Lemma start_happens_exactly_when_witness :
  (∃ data, (handleStartTraining params3 noFaults smallStore page).2
           = Awaiting data)
  ∧ (handleStartTraining params3 noFaults lopsidedStore page).2 = Returned
  ∧ EAllocate Xs
    ∈ since page (handleStartTraining params3 noFaults lopsidedStore page).1
  ∧ EDispose Xs
    ∉ since page (handleStartTraining params3 noFaults lopsidedStore page).1.
Proof.
  split.
  - destruct (start_happens_exactly_when params3 noFaults smallStore page)
      as [[_ Hstart] _].
    apply Hstart. split_and!.
    + apply page_reachesPrepare; simpl; lia.
    + intros i e H. discriminate H.
    + vm_compute. lia.
  - destruct (start_happens_exactly_when params3 noFaults lopsidedStore page)
      as (_ & _ & Hfail).
    destruct Hfail
      as (Hret & _ & _ & _ & _ & _ & _ & _ & _ & _ & Hkept & Hleak).
    + apply page_reachesPrepare; simpl; lia.
    + intros [_ H2]. vm_compute in H2. lia.
    + split_and!; [exact Hret | | exact Hkept].
      apply Hleak. split; [|reflexivity]. intros i e H. discriminate H.
Defined.

Lemma training_data_leaves_orphans_out_witness :
  numSamples (mkData 4 2) + 1 = totalImages (getDataSummary strayStore).
Proof.
  destruct (training_data_leaves_orphans_out params3 noFaults strayStore page
              (handleStartTraining params3 noFaults strayStore page).1
              (mkData 4 2)) as (_ & _ & _ & _ & _ & Hsum).
  - reflexivity.
  - apply (bool_decide_unpack _). by vm_compute.
  - apply Hsum. reflexivity.
Defined.

End OnSamples.

End SessionFacts.

(** ** The clock of the page *)

Module UiFacts.

Import Ui.

Lemma two_digits (n : N) :
  (n < 100)%N →
  padStart 2 (Ascii.ascii_of_nat 48) (toString n)
  = String (digit (n / 10)) (String (digit (n mod 10)) EmptyString).
Proof.
  intros Hn.
  assert (Hall : Forall (λ k, padStart 2 (Ascii.ascii_of_nat 48)
                                (toString (N.of_nat k))
                   = String (digit (N.of_nat k / 10))
                       (String (digit (N.of_nat k mod 10)) EmptyString))
                        (seq 0 100)).
  { apply (bool_decide_unpack _). by vm_compute. }
  rewrite Forall_forall in Hall. rewrite <- (N2Nat.id n).
  apply Hall. apply elem_of_seq. lia.
Qed.

Lemma digit_inj (x y : N) :
  (x < 10)%N → (y < 10)%N → digit x = digit y → x = y.
Proof.
  intros Hx Hy Heq. unfold digit in Heq.
  apply (f_equal Ascii.N_of_ascii) in Heq.
  rewrite !Ascii.N_ascii_embedding in Heq by lia. lia.
Qed.

Lemma time_fields (t : N) :
  (t < 360000)%N →
  (t / 3600 < 100 ∧ (t mod 3600) / 60 < 60 ∧ t mod 60 < 60
   ∧ t / 3600 * 3600 + (t mod 3600) / 60 * 60 + t mod 60 = t)%N.
Proof.
  intros Ht.
  pose proof (N.div_mod' t 3600).
  pose proof (N.mod_lt t 3600 ltac:(lia)).
  pose proof (N.div_mod' (t mod 3600) 60).
  pose proof (N.mod_lt (t mod 3600) 60 ltac:(lia)).
  pose proof (N.mod_lt t 60 ltac:(lia)).
  assert (((t mod 3600) mod 60 = t mod 60)%N) as Hmm.
  { rewrite (N.div_mod' t 3600) at 2.
    replace (3600 * (t / 3600) + t mod 3600)%N
      with (t mod 3600 + (60 * (t / 3600)) * 60)%N by lia.
    by rewrite N.Div0.mod_add. }
  split_and!; try lia.
  - apply N.Div0.div_lt_upper_bound. lia.
  - apply N.Div0.div_lt_upper_bound. lia.
Qed.

Lemma formatTime_digits (t : N) :
  (t < 360000)%N →
  formatTime t
  = String (digit (t / 3600 / 10)) (String (digit ((t / 3600) mod 10))
     (String colon
     (String (digit ((t mod 3600) / 60 / 10))
     (String (digit (((t mod 3600) / 60) mod 10)) (String colon
     (String (digit ((t mod 60) / 10)) (String (digit ((t mod 60) mod 10))
        EmptyString))))))).
Proof.
  intros Ht. destruct (time_fields t Ht) as (Hh & Hm & Hs & _).
  unfold formatTime. rewrite !two_digits by lia. done.
Qed.

(** X15.  For less than a hundred hours [formatTime] prints exactly
    eight characters: two decimal digits each for the hours, for the
    minutes below sixty and for the seconds below sixty, separated by
    colons.  The fields add up to the argument, and no two such times are
    printed alike. *)
Theorem formatTime_two_digit_fields (seconds : N) :
  (seconds < 360000)%N →
  let hrs := (seconds / 3600)%N in
  let mins := ((seconds mod 3600) / 60)%N in
  let secs := (seconds mod 60)%N in
  formatTime seconds
  = String (digit (hrs / 10)) (String (digit (hrs mod 10)) (String colon
     (String (digit (mins / 10)) (String (digit (mins mod 10)) (String colon
       (String (digit (secs / 10)) (String (digit (secs mod 10))
          EmptyString)))))))
  ∧ (mins < 60)%N ∧ (secs < 60)%N
  ∧ (hrs * 3600 + mins * 60 + secs)%N = seconds
  ∧ (∀ other, (other < 360000)%N →
       formatTime other = formatTime seconds → other = seconds).
Proof.
  intros Hs hrs mins secs.
  destruct (time_fields seconds Hs) as (Hh & Hm & Hsec & Hsum).
  split_and!; try done; [by apply formatTime_digits|].
  intros other Ho Heq.
  rewrite (formatTime_digits other Ho), (formatTime_digits seconds Hs) in Heq.
  destruct (time_fields other Ho) as (Hh' & Hm' & Hsec' & Hsum').
  injection Heq as E1 E2 E3 E4 E5 E6.
  assert (Hd : ∀ x y : N, (x < 100)%N → (y < 100)%N →
            digit (x / 10) = digit (y / 10) →
            digit (x mod 10) = digit (y mod 10) → x = y).
  { intros x y Hx Hy Ea Eb.
    apply digit_inj in Ea; [| apply N.Div0.div_lt_upper_bound; lia
                            | apply N.Div0.div_lt_upper_bound; lia].
    apply digit_inj in Eb; [| apply N.mod_lt; lia | apply N.mod_lt; lia].
    rewrite (N.div_mod' x 10), (N.div_mod' y 10). lia. }
  apply Hd in E2; [|lia|lia|done]. apply Hd in E4; [|lia|lia|done].
  apply Hd in E6; [|lia|lia|done]. lia.
Qed.

Lemma formatTime_two_digit_fields_witness :
  formatTime 3725 = "01:02:05"
  ∧ (∀ other, (other < 360000)%N →
       formatTime other = formatTime 3725 → other = 3725%N).
Proof.
  destruct (formatTime_two_digit_fields 3725) as (Hfmt & _ & _ & _ & Hinj);
    [lia|].
  split; [exact Hfmt | exact Hinj].
Defined.

End UiFacts.

(** ** The class list of the page *)

Module PageFacts.

Import Storage StorageMore Model App AppMore StorageFacts StoreMoreFacts.

Lemma updateClassSelector_classes (a : AppState) :
  app_classes (updateClassSelector a) = app_classes a.
Proof.
  unfold updateClassSelector. destruct (app_classes a) eqn:Hcs; [by rewrite Hcs|].
  destruct (_ || _); simpl; by rewrite ?Hcs.
Qed.

Lemma updateClassSelector_listed (a : AppState) :
  (app_classes a ≠ [] ∨ selectionListed a) →
  selectionListed (updateClassSelector a)
  ∧ (app_classes a ≠ [] → is_Some (selectedClassId (updateClassSelector a))).
Proof.
  unfold updateClassSelector, selectionListed.
  destruct (app_classes a) as [|c0 cs] eqn:Hcs.
  - intros [?|Hl]; [done|]. rewrite ?Hcs. split; [done|]. by intros ?.
  - intros _. destruct (selectedClassId a) as [k|] eqn:Hsel; simpl.
    + destruct (bool_decide_reflect (k = 0%Z)) as [Hk|Hk]; simpl.
      * rewrite ?Hcs. split; [|by eauto]. rewrite ?fmap_cons; apply elem_of_cons; by left.
      * destruct (bool_decide_reflect (Exists (λ c, cls_id c = k) (c0 :: cs)))
          as [Hex|Hex]; simpl.
        -- rewrite ?Hsel, ?Hcs. split; [|by eauto].
           apply Exists_exists in Hex as (c & Hc & <-).
           by apply list_elem_of_fmap_2.
        -- rewrite ?Hcs. split; [|by eauto]. rewrite ?fmap_cons; apply elem_of_cons; by left.
    + rewrite ?Hcs. split; [|by eauto]. rewrite ?fmap_cons; apply elem_of_cons; by left.
Qed.

Lemma renameFirst_map (id : Z) (name : string) (cs : list ClassRec) :
  NoDup (cls_id <$> cs) →
  renameFirst id name cs
  = (λ c, if bool_decide (cls_id c = id) then mkClass id name else c) <$> cs.
Proof.
  induction cs as [|c cs IH]; [done|]. rewrite fmap_cons.
  intros [Hc Hnd]%NoDup_cons. simpl.
  destruct (bool_decide_reflect (cls_id c = id)) as [Hid|Hid].
  - rewrite Hid. f_equal. symmetry. rewrite <- (list_fmap_id cs) at 2.
    apply list_fmap_ext. intros i x Hx. simpl.
    rewrite bool_decide_eq_false_2; [done|]. intros Hx'. apply Hc.
    rewrite Hid, <- Hx'. apply list_elem_of_fmap_2.
    by eapply list_elem_of_lookup_2.
  - f_equal. by apply IH.
Qed.

Lemma renameFirst_ids (id : Z) (name : string) (cs : list ClassRec) :
  cls_id <$> renameFirst id name cs = cls_id <$> cs.
Proof.
  induction cs as [|c cs IH]; [done|]. cbn [renameFirst].
  case_bool_decide; rewrite !fmap_cons; [done|]. by rewrite IH.
Qed.

Lemma getClass_putClass (id : Z) (name : string) (db : Store) :
  id ∈ (cls_id <$> classes db) →
  getClass id (putClass (mkClass id name) db) = Some (mkClass id name).
Proof.
  unfold getClass, putClass. cbn [classes cls_id].
  induction (classes db) as [|x l IH]; [by intros ?%elem_of_nil|].
  rewrite !fmap_cons. intros Hin.
  destruct (decide (cls_id x = id)) as [Hx|Hx].
  - rewrite bool_decide_eq_true_2 by done. by rewrite filter_cons_True.
  - rewrite bool_decide_eq_false_2 by done.
    rewrite filter_cons_False by done. apply IH.
    apply elem_of_cons in Hin as [->|Hin]; done.
Qed.

Section Builtins.

Variable trim : string → string.
Variable toLowerCase : string → string.

(** X16.  When the page lists the classes of the store and the keys of
    the store are unique, it still does after [handleAddClass],
    [handleDeleteClass] and the end of an edit of a class name, whatever
    fails on the way. *)
Theorem page_keeps_mirroring_store (a : AppState) (db : Store) :
  wellKeyed db → mirrors a db →
  (∀ input fault,
     mirrors (handleAddClass trim toLowerCase input fault a db).1.1
             (handleAddClass trim toLowerCase input fault a db).1.2)
  ∧ (∀ confirmed classId fault1 fault2,
       mirrors (handleDeleteClass confirmed classId fault1 fault2 a db).1.1
               (handleDeleteClass confirmed classId fault1 fault2 a db).1.2)
  ∧ (∀ classId currentName input faultGet faultPut,
       mirrors (saveEdit trim classId currentName input faultGet faultPut a db).1.1.1
               (saveEdit trim classId currentName input faultGet faultPut a db).1.1.2).
Proof.
  intros (Hnd & _) Hm. unfold mirrors in *. split_and!.
  - intros input fault. unfold handleAddClass.
    repeat case_bool_decide; try done.
    destruct fault as [e|]; simpl; [done|].
    by rewrite updateClassSelector_classes, Hm.
  - intros [|] classId [e1|] [e2|]; unfold handleDeleteClass; simpl; try done.
    + by rewrite foldl_deleteImageKey_classes.
    + rewrite updateClassSelector_classes. simpl.
      by rewrite foldl_deleteImageKey_classes, Hm.
  - intros classId currentName input faultGet faultPut. unfold saveEdit.
    destruct (_ && _); [|done]. unfold updateClassName.
    destruct faultGet as [e1|]; [done|].
    destruct (getClass classId db) as [c|] eqn:Hget; [|done].
    destruct faultPut as [e2|]; [done|]. simpl.
    rewrite updateClassSelector_classes. simpl.
    apply getClass_Some in Hget as [-> _].
    rewrite Hm. by apply renameFirst_map.
Qed.

(** X17.  A selection that is either unset or a listed class stays so
    through [handleAddClass], [handleDeleteClass] and the end of an edit;
    after a successful [handleAddClass] some class is selected, and after
    a successful [handleDeleteClass] the deleted class is not. *)
Theorem selection_stays_listed (a : AppState) (db : Store) :
  selectionListed a →
  (∀ input fault,
     selectionListed (handleAddClass trim toLowerCase input fault a db).1.1
     ∧ (trim input ≠ EmptyString →
        ¬ Exists (λ c, toLowerCase (cls_name c) = toLowerCase (trim input))
                 (app_classes a) →
        fault = None →
        is_Some (selectedClassId
                   (handleAddClass trim toLowerCase input fault a db).1.1)))
  ∧ (∀ confirmed classId fault1 fault2,
       selectionListed
         (handleDeleteClass confirmed classId fault1 fault2 a db).1.1
       ∧ (confirmed = true → fault1 = None → fault2 = None →
          selectedClassId
            (handleDeleteClass confirmed classId fault1 fault2 a db).1.1
          ≠ Some classId))
  ∧ (∀ classId currentName input faultGet faultPut,
       selectionListed
         (saveEdit trim classId currentName input faultGet faultPut a db).1.1.1).
Proof.
  intros Hsel. split_and!.
  - intros input fault. unfold handleAddClass.
    destruct (bool_decide_reflect (trim input = EmptyString)) as [He|He];
      [by split|].
    destruct (bool_decide_reflect
                (Exists (λ c, toLowerCase (cls_name c) = toLowerCase (trim input))
                        (app_classes a))) as [Hd|Hd]; [by split|].
    destruct fault as [e|]; simpl; [by split|].
    match goal with |- context [updateClassSelector ?x] =>
      destruct (updateClassSelector_listed x) as [Hl Hs] end.
    { left. simpl. by destruct (app_classes a). }
    split; [done|]. intros _ _ _. apply Hs. simpl. by destruct (app_classes a).
  - intros [|] classId fault1 fault2; unfold handleDeleteClass; simpl; [|by split].
    destruct (deleteClass classId fault1 fault2 db) as [[r|e] db'] eqn:Hdel;
      simpl; [|split; [done|]].
    2:{ intros _ -> ->. done. }
    set (a1 := mkApp _ _ _ _).
    assert (Hl1 : selectionListed a1).
    { unfold selectionListed, a1. simpl.
      destruct (selectedClassId a) as [k|] eqn:Hk; [|by case_bool_decide].
      case_bool_decide as Heq; [done|].
      unfold selectionListed in Hsel. rewrite Hk in Hsel.
      apply list_elem_of_fmap in Hsel as (c & -> & Hc).
      apply list_elem_of_fmap_2. apply list_elem_of_filter. split; [|done].
      intros Hc'. apply Heq. by rewrite Hc'. }
    destruct (updateClassSelector_listed a1) as [Hl _]; [by right|].
    split; [done|]. intros _ _ _ Hbad.
    unfold selectionListed in Hl. rewrite Hbad in Hl.
    rewrite updateClassSelector_classes in Hl. unfold a1 in Hl. simpl in Hl.
    apply list_elem_of_fmap in Hl as (c & Hid & Hc).
    apply list_elem_of_filter in Hc as [Hne _]. by apply Hne.
  - intros classId currentName input faultGet faultPut. unfold saveEdit.
    destruct (_ && _); [|done].
    destruct (updateClassName _ _ _ _ _) as [[r|e] db']; simpl; [|done].
    apply updateClassSelector_listed. right.
    unfold selectionListed in *. simpl.
    destruct (selectedClassId a); [|done]. by rewrite renameFirst_ids.
Qed.


End Builtins.

Section Edit.

Variable trim : string → string.

(** X18.  The end of an edit of a class name: an empty or unchanged name
    writes nothing and logs nothing; any other name is written under the
    class id with no check against the names of the other classes, which
    all stay as they are; and when the write fails, store and state keep
    the old name while the page shows the new one. *)
Theorem saveEdit_behaviour
    (classId : Z) (currentName input : string) (a : AppState) (db : Store) :
  let newName := trim input in
  (newName = EmptyString ∨ newName = currentName →
     ∀ faultGet faultPut,
       saveEdit trim classId currentName input faultGet faultPut a db
       = (a, db, [], currentName))
  ∧ (newName ≠ EmptyString → newName ≠ currentName →
       (classId ∈ (cls_id <$> classes db) →
          let r := saveEdit trim classId currentName input None None a db in
          getClass classId r.1.1.2 = Some (mkClass classId newName)
          ∧ (∀ c, c ∈ classes db → cls_id c ≠ classId → c ∈ classes r.1.1.2)
          ∧ cls_id <$> classes r.1.1.2 = cls_id <$> classes db
          ∧ cls_id <$> app_classes r.1.1.1 = cls_id <$> app_classes a
          ∧ r.1.2 = [EToast "Class name updated" TSuccess]
          ∧ r.2 = newName)
       ∧ (∀ faultGet faultPut e,
            (updateClassName classId newName faultGet faultPut db).1
            = Rejected e →
            saveEdit trim classId currentName input faultGet faultPut a db
            = (a, db,
               [EConsoleError "Error updating class name:" e;
                EToast "Failed to update class name" TError], newName))).
Proof.
  intros newName. split.
  - intros Hskip faultGet faultPut. unfold saveEdit. fold newName.
    destruct Hskip as [He|He].
    + rewrite (bool_decide_eq_false_2 (newName ≠ EmptyString)) by tauto.
      simpl. by rewrite bool_decide_eq_true_2.
    + rewrite (bool_decide_eq_false_2 (newName ≠ currentName)) by tauto.
      rewrite andb_false_r. case_bool_decide; congruence.
  - intros He Hc. split.
    + intros Hin r. unfold r, saveEdit. fold newName.
      rewrite !bool_decide_eq_true_2 by done.
      rewrite (bool_decide_eq_false_2 (newName = EmptyString)) by done.
      unfold updateClassName.
      destruct (getClass classId db) as [c|] eqn:Hget.
      2:{ by apply getClass_None in Hget. }
      apply getClass_Some in Hget as [Hid Hc0].
      cbn [andb fst snd]. rewrite Hid. split_and!; try done.
      * by apply getClass_putClass.
      * intros c' Hc' Hne. unfold putClass. cbn [classes].
        apply list_elem_of_fmap. exists c'. split; [|done].
        by rewrite bool_decide_eq_false_2.
      * apply putClass_ids.
      * rewrite updateClassSelector_classes. cbn [app_classes].
        apply renameFirst_ids.
    + intros faultGet faultPut e Hrej. unfold saveEdit. fold newName.
      rewrite !bool_decide_eq_true_2 by done.
      rewrite (bool_decide_eq_false_2 (newName = EmptyString)) by done.
      revert Hrej. unfold updateClassName.
      destruct faultGet as [e1|]; [by intros [= ->]|].
      destruct (getClass classId db); [|by intros [= <-]].
      destruct faultPut as [e2|]; [by intros [= ->]|done].
Qed.

End Edit.


Lemma wellKeyed_addImage (classId : Z) (data : string)
    (fault : option Error) (db : Store) :
  wellKeyed db → wellKeyed (addImage classId data fault db).2.
Proof.
  intros (Hc & Hck & Hi & Hik). destruct fault as [e|]; [done|].
  simpl. repeat split; simpl; try done.
  - rewrite fmap_app. apply NoDup_app. repeat split; try done.
    + intros x (c & Hid & Hin)%list_elem_of_fmap Hx'.
      apply list_elem_of_singleton in Hx'. subst.
      rewrite Forall_forall in Hik. specialize (Hik c Hin). simpl in *. lia.
    + apply NoDup_singleton.
  - apply Forall_app. split.
    + eapply Forall_impl; [exact Hik|]. intros; simpl in *; lia.
    + apply Forall_singleton. simpl. lia.
Qed.

(** The loop over the dropped files: the classes are untouched; the
    data URLs of the stored files are appended to the images in the
    order the files were dropped, under [classId] and with the next keys
    of the generator; the errors of the others are logged in that order. *)
Lemma addFiles_spec (classId : Z) (files : list FileLoad) (db : Store)
    (count : nat) (evs : list Event) :
  let new := imap (λ i dataUrl, mkImage (imageKey db + Z.of_nat i) classId dataUrl)
                  (omap storedData files) in
  addFiles classId files db count evs
  = (mkStore (classes db) (images db ++ new) (classKey db)
             (imageKey db + Z.of_nat (length new)),
     count + length new,
     evs ++ (EConsoleError "Error adding image:" <$> omap failure files)).
Proof.
  revert db count evs. induction files as [|f files IH]; intros db count evs.
  - simpl. rewrite !app_nil_r, Z.add_0_r, Nat.add_0_r. by destruct db.
  - destruct f as [[dataUrl|err] [werr|]];
      cbn [addFiles readResult writeFault addImage];
      simpl (omap storedData (_ :: _)); simpl (omap failure (_ :: _)).
    + rewrite IH. cbn zeta. simpl. by rewrite <- app_assoc.
    + rewrite IH. cbv zeta. cbn [classes images classKey imageKey].
      rewrite !length_imap. cbn [imap length].
      rewrite <- app_assoc. cbn [app].
      replace (imageKey db + Z.of_nat 0)%Z with (imageKey db) by lia.
      rewrite (imap_ext
                 (λ i d, mkImage (imageKey db + 1 + Z.of_nat i) classId d)
                 ((λ i d, mkImage (imageKey db + Z.of_nat i) classId d) ∘ S))
        by (intros i x _; simpl; f_equal; lia).
      change (list_omap FileLoad string storedData files)
        with (omap storedData files).
      replace (imageKey db + Z.of_nat (S (length (omap storedData files))))%Z
        with (imageKey db + 1 + Z.of_nat (length (omap storedData files)))%Z
        by lia.
      replace (count + S (length (omap storedData files)))
        with (S count + length (omap storedData files)) by lia. done.
    + rewrite IH. cbn zeta. simpl. by rewrite <- app_assoc.
    + rewrite IH. cbn zeta. simpl. by rewrite <- app_assoc.
Qed.

(** X20.  [handleTrainingImages]: with no class on the page it only
    warns.  Otherwise the data URLs of the files that could be read and
    written are appended to the stored images, in the order the files
    were dropped, with the next keys of the generator and all under one
    class, which is listed whenever the selection was; the classes are
    untouched; the errors of the other files are logged, one console
    error each, in that order; and the toast reports the number of files
    stored.  When the read that follows the loop fails, the handler
    rejects with that error after the same writes, and shows no toast. *)
Theorem handleTrainingImages_behaviour
    (files : list FileLoad) (a : AppState) (db : Store) :
  (app_classes a = [] →
     ∀ countFault,
       handleTrainingImages files countFault a db
       = (a, db, [EToast "Please add a class first" TWarning], Resolved ()))
  ∧ (app_classes a ≠ [] → selectionListed a →
     let r := handleTrainingImages files None a db in
     let n := length (filter (λ f, stored f = true) files) in
     ∃ classId,
       let new := imap (λ i dataUrl,
                          mkImage (imageKey db + Z.of_nat i) classId dataUrl)
                       (omap storedData files) in
       let errs := EConsoleError "Error adding image:" <$> omap failure files in
       selectedClassId r.1.1.1 = Some classId
       ∧ classId ∈ (cls_id <$> app_classes a)
       ∧ app_classes r.1.1.1 = app_classes a
       ∧ classes r.1.1.2 = classes db
       ∧ images r.1.1.2 = images db ++ new
       ∧ length new = n
       ∧ imageKey r.1.1.2 = (imageKey db + Z.of_nat n)%Z
       ∧ r.1.2 = errs ++ [EToast ("Added " +:+ Ui.toString (N.of_nat n)
                                  +:+ " image(s) to training data") TSuccess]
       ∧ length errs = length files - n
       ∧ r.2 = Resolved ()
       ∧ (∀ e, handleTrainingImages files (Some e) a db
               = (r.1.1.1, r.1.1.2, errs, Rejected e))).
Proof.
  split.
  - intros Hnil countFault. unfold handleTrainingImages. by rewrite Hnil.
  - intros Hne Hsel r n. unfold r, handleTrainingImages.
    destruct (app_classes a) as [|c0 cs] eqn:Hcs; [done|].
    set (classId := targetClass c0 a).
    rewrite (addFiles_spec classId files db 0 []).
    assert (Hn : length (omap storedData files) = n
                 ∧ length (omap failure files) = length files - n).
    { unfold n. clear. induction files as [|f files [IH1 IH2]]; [done|].
      pose proof (length_filter (λ f, stored f = true) files) as Hle.
      rewrite filter_cons.
      destruct f as [[d|e] [w|]];
        simpl (omap storedData (_ :: _)); simpl (omap failure (_ :: _));
        unfold stored at 1; cbn [readResult writeFault];
        rewrite ?decide_True, ?decide_False by done; cbn [length];
        change (list_omap FileLoad string storedData files)
          with (omap storedData files);
        change (list_omap FileLoad Error failure files)
          with (omap failure files); lia. }
    destruct Hn as [Hn1 Hn2].
    exists classId. cbv zeta. cbn [fst snd classes images imageKey app].
    rewrite !length_imap, !length_fmap, Hn1, Hn2.
    split_and!; try done.
    unfold classId, targetClass. unfold selectionListed in Hsel.
    destruct (selectedClassId a) as [k|].
    + case_bool_decide; [apply elem_of_cons; by left|]. by rewrite <- Hcs.
    + apply elem_of_cons; by left.
Qed.

Section OnSamples.

Import Samples SamplesMore.

Lemma listed_selectionListed : selectionListed listed.
Proof. unfold selectionListed. simpl. apply elem_of_cons. by left. Defined.

Lemma page_keeps_mirroring_store_witness :
  mirrors
    (handleAddClass Ascii7.trim Ascii7.toLowerCase " Bird " None listed smallStore).1.1
    (handleAddClass Ascii7.trim Ascii7.toLowerCase " Bird " None listed smallStore).1.2.
Proof.
  destruct (page_keeps_mirroring_store Ascii7.trim Ascii7.toLowerCase
              listed smallStore smallStore_wellKeyed) as (Hadd & _).
  - reflexivity.
  - apply Hadd.
Defined.

Lemma selection_stays_listed_witness :
  selectedClassId (handleDeleteClass true 1 None None listed smallStore).1.1
  ≠ Some 1%Z.
Proof.
  destruct (selection_stays_listed Ascii7.trim Ascii7.toLowerCase
              listed smallStore listed_selectionListed) as (_ & Hdel & _).
  destruct (Hdel true 1%Z None None) as [_ Hsel].
  apply Hsel; reflexivity.
Defined.

Lemma saveEdit_behaviour_witness :
  getClass 2 (saveEdit Ascii7.trim 2 "dog" " cat " None None listed smallStore).1.1.2
  = Some (mkClass 2 "cat")
  ∧ cat ∈ classes
      (saveEdit Ascii7.trim 2 "dog" " cat " None None listed smallStore).1.1.2.
Proof.
  destruct (saveEdit_behaviour Ascii7.trim 2 "dog" " cat " listed smallStore)
    as [_ Hnew].
  destruct Hnew as [Hok _]; [by vm_compute | by vm_compute |].
  destruct Hok as (Hget & Hothers & _).
  - vm_compute. right. left.
  - split; [exact Hget|]. apply Hothers; [left | by vm_compute].
Defined.

Lemma handleTrainingImages_behaviour_witness :
  images (handleTrainingImages drops None listed smallStore).1.1.2
  = images smallStore ++ [mkImage 5 1 "e"]
  ∧ (handleTrainingImages drops None listed smallStore).1.2
    = [EConsoleError "Error adding image:" (mkError "NotReadableError");
       EConsoleError "Error adding image:" quotaExceeded;
       EToast "Added 1 image(s) to training data" TSuccess].
Proof.
  destruct (handleTrainingImages_behaviour drops listed smallStore) as [_ Hsome].
  destruct Hsome
    as (classId & Hsel & _ & _ & _ & Himg & _ & _ & Hlog & _);
    [by vm_compute | exact listed_selectionListed |].
  injection Hsel as <-. split; [exact Himg | exact Hlog].
Defined.

End OnSamples.

End PageFacts.

(** ** The saved model and the data of the page *)

Module ModelFacts.

Import Storage StorageMore Model App AppMore Labels ModelPage.

(** X21.  A run started from the page leaves the model without class
    labels: [createModel] empties the list [prepareTrainingData] has
    just filled, whether or not the network can be built.  A model
    trained this way is therefore saved with an empty list of labels,
    and [predict] maps over no label at all. *)
Theorem training_drops_class_labels
    (cwi : list (Z * (string * list ImageRec))) (fault : option Error)
    (m : LabelState) :
  let m' := (labelsOfRun cwi fault m).2 in
  length (classLabels (prepareLabels cwi m)) = length cwi
  ∧ classLabels m' = []
  ∧ (fault = None →
       hasModel m' = true
       ∧ (∀ d, (handleSaveModel None None m' d).1
               = mkDb (core d) (Some []) (settings d))
       ∧ (∀ sort probabilities,
            predict sort probabilities m' = Resolved (sort []))).
Proof.
  intros m'. split_and!.
  - unfold prepareLabels. simpl. by rewrite length_imap.
  - unfold m', labelsOfRun, createModel. by destruct fault.
  - intros ->. done.
Qed.

(** X22.  Saving and loading the model.  Without a model nothing is
    written.  With one, a save that succeeds stores the class labels
    and touches nothing else, and a load that follows it gives any
    model manager these labels back; a save or a load that fails leaves
    the database, respectively the model manager, as it was; and with
    nothing saved, loading only warns. *)
Theorem model_save_load_round_trip (m : LabelState) (d : Database) :
  (hasModel m = false →
     ∀ faultSave faultInfo,
       handleSaveModel faultSave faultInfo m d
       = (d, [EToast "No model to save" TWarning]))
  ∧ (hasModel m = true →
       let d' := (handleSaveModel None None m d).1 in
       core d' = core d ∧ settings d' = settings d
       ∧ getModelInfo d' = Some (classLabels m)
       ∧ (∀ m0, (handleLoadModel None None m0 d').1
                = mkLabels true (classLabels m))
       ∧ (∀ faultSave faultInfo,
            faultSave ≠ None ∨ faultInfo ≠ None →
            (handleSaveModel faultSave faultInfo m d).1 = d))
  ∧ (∀ faultGet faultLoad m0,
       faultGet ≠ None ∨ faultLoad ≠ None ∨ getModelInfo d = None →
       (handleLoadModel faultGet faultLoad m0 d).1 = m0)
  ∧ (getModelInfo d = None →
       ∀ faultLoad m0,
         (handleLoadModel None faultLoad m0 d).2
         = [EToast "No saved model found" TWarning]).
Proof.
  split_and!.
  - intros Hm faultSave faultInfo. unfold handleSaveModel. by rewrite Hm.
  - intros Hm d'. unfold d', handleSaveModel, saveModel. rewrite Hm. simpl.
    split_and!; try done.
    intros [e1|] [e2|] [H|H]; done.
  - intros [e1|] [e2|] m0 Hf; unfold handleLoadModel; try done.
    + by destruct (getModelInfo d).
    + destruct Hf as [?|[?|Hn]]; try done. by rewrite Hn.
  - intros Hn faultLoad m0. unfold handleLoadModel. by rewrite Hn.
Qed.

(** X23.  [handleClearData]: a declined confirmation changes nothing.
    When the four clears succeed, page, model and database are empty,
    and the key generators go on from where they were: the next class
    gets the key the generator had reached.  When a clear fails, the page
    and the model stay as they were although the stores cleared before
    are empty: after a failure on the images, the page lists classes
    the store no longer has. *)
Theorem handleClearData_behaviour
    (faults : StoreName → option Error)
    (a : AppState) (m : LabelState) (d : Database) :
  handleClearData false faults a m d = (a, m, d, [])
  ∧ ((∀ n, faults n = None) →
       let r := handleClearData true faults a m d in
       app_classes r.1.1.1 = [] ∧ selectedClassId r.1.1.1 = None
       ∧ r.1.1.2 = mkLabels false []
       ∧ classes (core r.1.2) = [] ∧ images (core r.1.2) = []
       ∧ getModelInfo r.1.2 = None ∧ settings r.1.2 = ∅
       ∧ (∀ name, (addClass name None (core r.1.2)).1
                  = Resolved (classKey (core d)))
       ∧ r.2 = [EToast "All data cleared" TSuccess])
  ∧ (∀ e, faults CLASSES = None → faults IMAGES = Some e →
       let r := handleClearData true faults a m d in
       r.1.1.1 = a ∧ r.1.1.2 = m
       ∧ classes (core r.1.2) = []
       ∧ images (core r.1.2) = images (core d)
       ∧ (app_classes a ≠ [] → ¬ mirrors r.1.1.1 (core r.1.2))
       ∧ r.2 = [EConsoleError "Error clearing data:" e;
                EToast "Failed to clear data" TError]).
Proof.
  split_and!; [done| |].
  - intros Hf r. unfold r, handleClearData, clearAll. simpl.
    rewrite !Hf. done.
  - intros e Hc Hi r. unfold r, handleClearData, clearAll. simpl.
    rewrite Hc. simpl. rewrite Hi. simpl. split_and!; try done.
Qed.

Section OnSamples.

Import Samples SamplesMore.

Lemma training_drops_class_labels_witness :
  predict (λ l, l) [mkNum 1; mkNum 2]
          (labelsOfRun [(1%Z, ("cat", [])); (2%Z, ("dog", []))] None
                       (mkLabels false [])).2
  = Resolved [].
Proof.
  destruct (training_drops_class_labels
              [(1%Z, ("cat", [])); (2%Z, ("dog", []))] None (mkLabels false []))
    as (_ & _ & Hok).
  destruct Hok as (_ & _ & Hpredict); [reflexivity|].
  apply (Hpredict (λ l, l)).
Defined.

Lemma model_save_load_round_trip_witness :
  (handleLoadModel None None (mkLabels false [])
     (handleSaveModel None None (mkLabels true catDogLabels) database).1).1
  = mkLabels true catDogLabels.
Proof.
  destruct (model_save_load_round_trip (mkLabels true catDogLabels) database)
    as (_ & Hsaved & _).
  destruct Hsaved as (_ & _ & _ & Hload & _); [reflexivity|].
  apply Hload.
Defined.

Lemma handleClearData_behaviour_witness :
  ¬ mirrors
      (handleClearData true imagesStuck listed (mkLabels true catDogLabels)
                       database).1.1.1
      (core (handleClearData true imagesStuck listed (mkLabels true catDogLabels)
                             database).1.2).
Proof.
  destruct (handleClearData_behaviour imagesStuck listed
              (mkLabels true catDogLabels) database) as (_ & _ & Hstuck).
  destruct (Hstuck quotaExceeded) as (_ & _ & _ & _ & Hoff & _);
    [reflexivity | reflexivity |].
  apply Hoff. by vm_compute.
Defined.

End OnSamples.

End ModelFacts.
